(** * api/ocr-summarize.ts: the PDF text-extraction endpoint

    A shallow embedding of the serverless [handler] of
    [api/ocr-summarize.ts] and the properties of its HTTP contract.

    The handler is a straight-line asynchronous function wrapped in one
    [try]/[catch].  It is embedded in a small monad that records the calls
    made to the outside world (the HTTP client, the PDF parser, the
    response object) and carries JavaScript completions: a computation
    either returns normally or throws a value.  The JavaScript operators the
    handler uses ([||], [&&], [?.], [??], [!], property reads, [trim],
    [String]) are embedded on a datatype of JavaScript values.  An awaited
    call may also never settle, and [String] may throw. *)

From Stdlib Require Import List ZArith NArith Bool String Ascii Lia DecimalString.
Import ListNotations.

Set Implicit Arguments.
Set Warnings "-register-all".
Local Open Scope Z_scope.

(* ================================================================= *)
(** ** JavaScript strings *)

(** A JavaScript string is a sequence of UTF-16 code units. *)
Definition jsstring : Type := list N.

(** The code units of an ASCII literal of the source. *)
Definition lit (s : string) : jsstring :=
  map N_of_ascii (list_ascii_of_string s).

Fixpoint jsstring_eqb (a b : jsstring) : bool :=
  match a, b with
  | [], [] => true
  | x :: a', y :: b' => N.eqb x y && jsstring_eqb a' b'
  | _, _ => false
  end.

(** [WhiteSpace] and [LineTerminator] of ECMAScript, the code points that
    [String.prototype.trim] strips: TAB, LF, VT, FF, CR, SP, NBSP, the
    other space separators (category Zs), LS, PS and the BOM.  They all
    lie in the basic plane, so the test is on one code unit. *)
Definition is_white_space (c : N) : bool :=
  ((9 <=? c) && (c <=? 13) ||
   (c =? 32) || (c =? 160) || (c =? 5760) ||
   (8192 <=? c) && (c <=? 8202) ||
   (c =? 8232) || (c =? 8233) || (c =? 8239) || (c =? 8287) ||
   (c =? 12288) || (c =? 65279))%N.

Fixpoint trimStart (s : jsstring) : jsstring :=
  match s with
  | [] => []
  | c :: s' => if is_white_space c then trimStart s' else s
  end.

Definition trimEnd (s : jsstring) : jsstring :=
  rev (trimStart (rev s)).

(** [String.prototype.trim]. *)
Definition trim (s : jsstring) : jsstring :=
  trimEnd (trimStart s).

(** A string made of white space only (the empty string included). *)
Definition blank (s : jsstring) : Prop :=
  Forall (fun c => is_white_space c = true) s.

(** The first and the last code unit, when there is one, are not white
    space. *)
Definition no_outer_white_space (s : jsstring) : Prop :=
  (forall c s', s = c :: s' -> is_white_space c = false) /\
  (forall c s', s = s' ++ [c] -> is_white_space c = false).

(* ================================================================= *)
(** ** JavaScript values *)

(** The Number type is IEEE 754 binary64.  The handler never computes with
    numbers: a number can only reach it inside the request body or as a
    thrown value, where it is tested for truthiness or rendered by
    [String].  The embedding is therefore generic in the carrier. *)
Class NumberOps : Type := {
  number : Type;
  (** [+0], [-0] and [NaN]. *)
  number_is_falsy : number -> bool;
  (** [Number::toString]. *)
  number_toString : number -> jsstring
}.

(** Integral numbers, for the examples. *)
Definition decimal_digits (z : Z) : jsstring :=
  lit (NilZero.string_of_int (Z.to_int z)).

#[export] Instance IntegerNumbers : NumberOps := {
  number := Z;
  number_is_falsy := Z.eqb 0;
  number_toString := decimal_digits
}.

(** The prototype an object inherits from; only [Error.prototype] defines
    properties the handler reads ([message], and [name] through
    [toString]). *)
Inductive Prototype : Type :=
| ObjectPrototype
| ErrorPrototype.

Section Values.
Context {NUM : NumberOps}.

Inductive value : Type :=
| VUndefined
| VNull
| VBool (b : bool)
| VNumber (n : number)
| VString (s : jsstring)
| VArray (elems : list value)
| VObject (proto : Prototype) (props : list (jsstring * value)).

(** A completion: normal return or a thrown value; for an awaited
    promise: fulfilled, rejected, or never settled. *)
Inductive Completion (A : Type) : Type :=
| Normal (a : A)
| Throw (e : value)
| Pending.
Arguments Normal {A} a.
Arguments Throw {A} e.
Arguments Pending {A}.

(** [ToBoolean]: the test behind [!], [||] and [&&]. *)
Definition truthy (v : value) : bool :=
  match v with
  | VUndefined | VNull => false
  | VBool b => b
  | VNumber n => negb (number_is_falsy n)
  | VString s => match s with [] => false | _ :: _ => true end
  | VArray _ | VObject _ _ => true
  end.

(** [null] or [undefined]: the test behind [?.] and [??]. *)
Definition nullish (v : value) : bool :=
  match v with
  | VUndefined | VNull => true
  | _ => false
  end.

(** The first binding of a key among the own properties of an object. *)
Fixpoint own_property (k : jsstring) (props : list (jsstring * value))
  : option value :=
  match props with
  | [] => None
  | (k', v) :: rest => if jsstring_eqb k k' then Some v else own_property k rest
  end.

(** What [Error.prototype] holds: [name] is ["Error"], [message] is the
    empty string. *)
Definition error_prototype_property (k : jsstring) : value :=
  if jsstring_eqb k (lit "name") then VString (lit "Error")
  else if jsstring_eqb k (lit "message") then VString []
  else VUndefined.

(** The error objects the JavaScript engine itself throws.  The text of
    their message is left to the engine by the language definition. *)
Inductive EngineFault : Type :=
| ReadOfNullish      (** a property read on [null] or [undefined] *)
| NotAFunction       (** a call of a value that is no function *)
| NotPrimitive.      (** a conversion of an object that yields no primitive *)

Definition TypeError (message : jsstring) : value :=
  VObject ErrorPrototype
    [(lit "name", VString (lit "TypeError")); (lit "message", VString message)].

(** The value of [v.k] when [v] is neither [null] nor [undefined], for the
    property names the handler reads, [fileURL], [text] and [message]:
    none of them is a built-in property of a primitive or of an array, so
    only objects may hold them. *)
Definition property (v : value) (k : jsstring) : option value :=
  match v with
  | VUndefined | VNull => None
  | VBool _ | VNumber _ | VString _ | VArray _ => Some VUndefined
  | VObject proto props =>
      match own_property k props, proto with
      | Some x, _ => Some x
      | None, ErrorPrototype => Some (error_prototype_property k)
      | None, ObjectPrototype => Some VUndefined
      end
  end.

(** [v.k]: a read on [null] or [undefined] throws a [TypeError]. *)
Definition get (engine_message : EngineFault -> jsstring)
    (v : value) (k : jsstring) : Completion value :=
  match property v k with
  | Some x => Normal x
  | None => Throw (TypeError (engine_message ReadOfNullish))
  end.

(** [Error.prototype.toString] on the rendered [name] and [message]. *)
Definition error_toString (name msg : jsstring) : jsstring :=
  match name, msg with
  | [], _ => msg
  | _, [] => name
  | _, _ => name ++ lit ": " ++ msg
  end.

(** [String(v)], or [None] where it throws a [TypeError].  An object is
    converted by its [toString]: an own [toString] property shadows the
    inherited method, and as no value of this datatype is callable the
    conversion then falls back on [valueOf], which yields no primitive,
    and throws.  Otherwise an array is its elements joined by commas,
    [null] and [undefined] elements rendered empty; a plain object is
    ["[object Object]"]; an error object is rendered by
    [Error.prototype.toString] from its [name] and [message], an absent or
    [undefined] one replaced by its default. *)
Fixpoint ToString (v : value) : option jsstring :=
  match v with
  | VUndefined => Some (lit "undefined")
  | VNull => Some (lit "null")
  | VBool true => Some (lit "true")
  | VBool false => Some (lit "false")
  | VNumber n => Some (number_toString n)
  | VString s => Some s
  | VArray elems =>
      (fix join (l : list value) : option jsstring :=
         match l with
         | [] => Some []
         | x :: l' =>
             let head :=
               match x with
               | VUndefined | VNull => Some []
               | _ => ToString x
               end in
             match l' with
             | [] => head
             | _ :: _ =>
                 match head, join l' with
                 | Some h, Some t => Some (h ++ lit "," ++ t)
                 | _, _ => None
                 end
             end
         end) elems
  | VObject proto props =>
      match own_property (lit "toString") props with
      | Some _ => None
      | None =>
          match proto with
          | ObjectPrototype => Some (lit "[object Object]")
          | ErrorPrototype =>
              let render :=
                fix render (k dflt : jsstring) (l : list (jsstring * value))
                  : option jsstring :=
                  match l with
                  | [] => Some dflt
                  | (k', x) :: l' =>
                      if jsstring_eqb k k'
                      then match x with
                           | VUndefined => Some dflt
                           | _ => ToString x
                           end
                      else render k dflt l'
                  end in
              match render (lit "name") (lit "Error") props,
                    render (lit "message") [] props with
              | Some name, Some msg => Some (error_toString name msg)
              | _, _ => None
              end
          end
      end
  end.

(** [String(v)] as an expression. *)
Definition String_ (engine_message : EngineFault -> jsstring) (v : value)
  : Completion value :=
  match ToString v with
  | Some s => Normal (VString s)
  | None => Throw (TypeError (engine_message NotPrimitive))
  end.

End Values.

Arguments Normal {NUM A} a.
Arguments Throw {NUM A} e.
Arguments Pending {NUM A}.

(* ================================================================= *)
(** ** Asynchronous computations and the outside world *)

Section Handler.
Context {NUM : NumberOps}.

(** The calls the handler makes to its collaborators, in program order. *)
Inductive Event : Type :=
| Fetch (url : value)                  (** [fetch(fileURL)] *)
| ArrayBuffer                          (** [response.arrayBuffer()] *)
| PdfParse (buffer : list Byte.byte)   (** [pdfParse(buffer)] *)
| Respond (status : Z) (body : value). (** [res.status(status).json(body)] *)

(** An [async] computation: the calls made so far and the completion;
    [Pending] when it waits for ever on a call that does not settle. *)
Definition Async (A : Type) : Type := (list Event * Completion A)%type.

Definition ret {A} (a : A) : Async A := ([], Normal a).

Definition bind {A B} (m : Async A) (k : A -> Async B) : Async B :=
  match m with
  | (t, Normal a) => let (t', r) := k a in (t ++ t', r)
  | (t, Throw e) => (t, Throw e)
  | (t, Pending) => (t, Pending)
  end.

(** An expression that makes no call. *)
Definition eval {A} (c : Completion A) : Async A := ([], c).

(** [await] of a call to a collaborator. *)
Definition await {A} (call : Event) (c : Completion A) : Async A := ([call], c).

(** [try { m } catch (err) { h err }]; a call that never settles is not
    caught. *)
Definition try_catch {A} (m : Async A) (h : value -> Async A) : Async A :=
  match m with
  | (t, Normal a) => (t, Normal a)
  | (t, Throw err) => let (t', r) := h err in (t ++ t', r)
  | (t, Pending) => (t, Pending)
  end.

Notation "x <- m ;; k" := (bind m (fun x => k))
  (at level 61, m at next level, right associativity).

(** [a || b] and [a && b]: the right operand is evaluated only when the
    left one does not decide. *)
Definition or_else (a : value) (b : Async value) : Async value :=
  if truthy a then ret a else b.

Definition and_then (a : value) (b : Async value) : Async value :=
  if truthy a then b else ret a.

(** [a ?? b] with a constant right operand. *)
Definition coalesce (a b : value) : value := if nullish a then b else a.

(** The [Response] of node-fetch, as far as the handler reads it. *)
Record FetchResponse : Type := {
  status : Z;
  arrayBuffer : Completion (list Byte.byte)
}.

(** [response.ok]: the status is in the range 200-299. *)
Definition ok (response : FetchResponse) : bool :=
  (200 <=? status response) && (status response <? 300).

(** The collaborators of one invocation: the HTTP client, the PDF parser
    and the JavaScript engine. *)
Record World : Type := {
  fetch : value -> Completion FetchResponse;
  pdfParse : list Byte.byte -> Completion value;
  engine_message : EngineFault -> jsstring
}.

(** The [VercelRequest], as far as the handler reads it: [req.query.fileURL]
    ([undefined], a string, or an array of strings when the parameter is
    repeated) and [req.body], a lazy property whose read parses the payload
    and may throw (the read is synchronous: it is never [Pending] on the
    platform). *)
Record Request : Type := {
  query_fileURL : value;
  body : Completion value
}.

(* ================================================================= *)
(** ** The handler *)

(** [{ ok: false, error: e }] and [{ ok: true, text: t }]. *)
Definition error_envelope (e : value) : value :=
  VObject ObjectPrototype [(lit "ok", VBool false); (lit "error", e)].

Definition success_envelope (t : value) : value :=
  VObject ObjectPrototype [(lit "ok", VBool true); (lit "text", t)].

(** [return res.status(s).json(b)]. *)
Definition respond (s : Z) (b : value) : Async unit := ([Respond s b], Normal tt).

Section Invocation.
Variable w : World.
Variable req : Request.

(** [(req.query.fileURL as string) || (req.body && (req.body as any).fileURL)] *)
Definition read_fileURL : Async value :=
  or_else (query_fileURL req)
    (b <- eval (body req) ;;
     and_then b
       (b' <- eval (body req) ;;
        eval (get (engine_message w) b' (lit "fileURL")))).

(** [text.trim()]: only a string has a callable [trim]. *)
Definition call_trim (text : value) : Completion value :=
  match text with
  | VString s => Normal (VString (trim s))
  | _ => Throw (TypeError (engine_message w NotAFunction))
  end.

(** [data?.text?.trim() ?? ""] *)
Definition extract_text (data : value) : Async value :=
  chain <-
    (if nullish data then ret VUndefined
     else
       text <- eval (get (engine_message w) data (lit "text")) ;;
       if nullish text then ret VUndefined
       else eval (call_trim text)) ;;
  ret (coalesce chain (VString [])).

(** The body of the [try] block. *)
Definition try_block : Async unit :=
  fileURL <- read_fileURL ;;
  if negb (truthy fileURL) then
    respond 400 (error_envelope (VString (lit "Missing fileURL parameter")))
  else
    response <- await (Fetch fileURL) (fetch w fileURL) ;;
    if negb (ok response) then
      respond 400
        (error_envelope (VString (lit "Unable to fetch file from provided URL")))
    else
      buffer <- await ArrayBuffer (arrayBuffer response) ;;
      data <- await (PdfParse buffer) (pdfParse w buffer) ;;
      extractedText <- extract_text data ;;
      respond 200 (success_envelope extractedText).

(** The body of the [catch] block:
    [error: err.message || String(err)]. *)
Definition catch_block (err : value) : Async unit :=
  message <- eval (get (engine_message w) err (lit "message")) ;;
  error <- or_else message (eval (String_ (engine_message w) err)) ;;
  respond 500 (error_envelope error).

Definition handler : Async unit :=
  try_catch try_block catch_block.

End Invocation.

(* ================================================================= *)
(** ** Observations and conditions on an invocation *)

(** The JSON responses sent during a computation. *)
Fixpoint responses (t : list Event) : list (Z * value) :=
  match t with
  | [] => []
  | Respond s b :: t' => (s, b) :: responses t'
  | _ :: t' => responses t'
  end.

(** The outbound requests issued during a computation. *)
Fixpoint fetches (t : list Event) : list value :=
  match t with
  | [] => []
  | Fetch u :: t' => u :: fetches t'
  | _ :: t' => fetches t'
  end.

(** A member of a JSON object. *)
Definition member (k : string) (b : value) : option value :=
  match b with
  | VObject _ props => own_property (lit k) props
  | _ => None
  end.

Definition missing_parameter : value :=
  error_envelope (VString (lit "Missing fileURL parameter")).

Definition unable_to_fetch : value :=
  error_envelope (VString (lit "Unable to fetch file from provided URL")).

(** The three shapes of the HTTP contract, as JSON objects. *)
Inductive envelope : Z -> value -> Prop :=
| success (text : jsstring) :
    envelope 200
      (VObject ObjectPrototype
         [(lit "ok", VBool true); (lit "text", VString text)])
| client_error (error : jsstring) :
    envelope 400
      (VObject ObjectPrototype
         [(lit "ok", VBool false); (lit "error", VString error)])
| server_error (error : jsstring) :
    envelope 500
      (VObject ObjectPrototype
         [(lit "ok", VBool false); (lit "error", VString error)]).

(** The request body holds no [fileURL]: there is no body (or a falsy one),
    or the property is [undefined] on it. *)
Definition body_lacks_fileURL (b : value) : Prop :=
  truthy b = false \/ property b (lit "fileURL") = Some VUndefined.

(** The [fileURL] parameter is the empty string in each source that
    supplies it. *)
Inductive empty_fileURL (req : Request) : Prop :=
| empty_in_both (b : value) :
    query_fileURL req = VString [] ->
    body req = Normal b ->
    property b (lit "fileURL") = Some (VString []) ->
    empty_fileURL req
| empty_in_query (b : value) :
    query_fileURL req = VString [] ->
    body req = Normal b ->
    body_lacks_fileURL b ->
    empty_fileURL req
| empty_in_body (b : value) :
    query_fileURL req = VUndefined ->
    body req = Normal b ->
    property b (lit "fileURL") = Some (VString []) ->
    empty_fileURL req.

(** The parsed document carries no text: no result object, no [text]
    property, or a [text] of white space only. *)
Inductive no_text (data : value) : Prop :=
| no_data : nullish data = true -> no_text data
| no_text_property (text : value) :
    property data (lit "text") = Some text -> nullish text = true ->
    no_text data
| blank_text (text : jsstring) :
    property data (lit "text") = Some (VString text) -> blank text ->
    no_text data.

(** One of the three asynchronous steps on [url] throws [e]. *)
Inductive step_throws (w : World) (url e : value) : Prop :=
| fetch_throws :
    fetch w url = Throw e -> step_throws w url e
| buffering_throws (response : FetchResponse) :
    fetch w url = Normal response -> ok response = true ->
    arrayBuffer response = Throw e -> step_throws w url e
| parsing_throws (response : FetchResponse) (buffer : list Byte.byte) :
    fetch w url = Normal response -> ok response = true ->
    arrayBuffer response = Normal buffer ->
    pdfParse w buffer = Throw e -> step_throws w url e.

Definition is_string (v : value) : bool :=
  match v with
  | VString _ => true
  | _ => false
  end.

(** The value of [err.message || String(err)], or [None] where the
    expression throws: on [null] and [undefined], whose [message] cannot be
    read, and on a value with a falsy [message] that [String] cannot
    render. *)
Definition reported (err : value) : option value :=
  match property err (lit "message") with
  | Some message =>
      if truthy message then Some message
      else match ToString err with
           | Some s => Some (VString s)
           | None => None
           end
  | None => None
  end.

(** A thrown value the [catch] block reports as a string: neither [null]
    nor [undefined], with a [message] that is a string when it is truthy,
    and that [String] can render when its [message] is falsy.  The
    instances of [Error] are such values, and so are thrown strings. *)
Definition reportable (e : value) : bool :=
  match reported e with
  | Some x => is_string x
  | None => false
  end.

(** The contract of the platform and of the collaborators on what they
    throw: node-fetch and pdf-parse reject with instances of [Error], and
    so does the body parser of the platform. *)
Record raises_reportable (w : World) (req : Request) : Prop := {
  body_faults : forall e, body req = Throw e -> reportable e = true;
  fetch_faults : forall url e, fetch w url = Throw e -> reportable e = true;
  buffering_faults : forall url response e,
    fetch w url = Normal response -> arrayBuffer response = Throw e ->
    reportable e = true;
  parsing_faults : forall buffer e,
    pdfParse w buffer = Throw e -> reportable e = true
}.

(** Every call the invocation may await settles. *)
Record settles (w : World) (req : Request) : Prop := {
  body_settles : body req <> Pending;
  fetch_settles : forall url, fetch w url <> Pending;
  buffering_settles : forall url response,
    fetch w url = Normal response -> arrayBuffer response <> Pending;
  parsing_settles : forall buffer, pdfParse w buffer <> Pending
}.

(** *** The paths through the handler *)

(** The [try] block throws [e] after the calls [calls]: at the read of the
    body, at one of the three awaited calls, or at the call of [trim] on a
    [text] that is no string. *)
Inductive thrown (w : World) (req : Request) : list Event -> value -> Prop :=
| thrown_by_body (e : value) :
    truthy (query_fileURL req) = false ->
    body req = Throw e ->
    thrown w req [] e
| thrown_by_fetch (url e : value) :
    read_fileURL w req = ret url -> truthy url = true ->
    fetch w url = Throw e ->
    thrown w req [Fetch url] e
| thrown_by_buffering (url : value) (response : FetchResponse) (e : value) :
    read_fileURL w req = ret url -> truthy url = true ->
    fetch w url = Normal response -> ok response = true ->
    arrayBuffer response = Throw e ->
    thrown w req [Fetch url; ArrayBuffer] e
| thrown_by_parser (url : value) (response : FetchResponse)
    (buffer : list Byte.byte) (e : value) :
    read_fileURL w req = ret url -> truthy url = true ->
    fetch w url = Normal response -> ok response = true ->
    arrayBuffer response = Normal buffer ->
    pdfParse w buffer = Throw e ->
    thrown w req [Fetch url; ArrayBuffer; PdfParse buffer] e
| thrown_by_trim (url : value) (response : FetchResponse)
    (buffer : list Byte.byte) (data text : value) :
    read_fileURL w req = ret url -> truthy url = true ->
    fetch w url = Normal response -> ok response = true ->
    arrayBuffer response = Normal buffer ->
    pdfParse w buffer = Normal data ->
    property data (lit "text") = Some text ->
    nullish text = false -> is_string text = false ->
    thrown w req [Fetch url; ArrayBuffer; PdfParse buffer]
      (TypeError (engine_message w NotAFunction)).

(** The [try] block waits for ever after the calls [calls], on a call
    that does not settle. *)
Inductive stalled (w : World) (req : Request) : list Event -> Prop :=
| stalled_at_body :
    truthy (query_fileURL req) = false ->
    body req = Pending ->
    stalled w req []
| stalled_at_fetch (url : value) :
    read_fileURL w req = ret url -> truthy url = true ->
    fetch w url = Pending ->
    stalled w req [Fetch url]
| stalled_at_buffering (url : value) (response : FetchResponse) :
    read_fileURL w req = ret url -> truthy url = true ->
    fetch w url = Normal response -> ok response = true ->
    arrayBuffer response = Pending ->
    stalled w req [Fetch url; ArrayBuffer]
| stalled_at_parser (url : value) (response : FetchResponse)
    (buffer : list Byte.byte) :
    read_fileURL w req = ret url -> truthy url = true ->
    fetch w url = Normal response -> ok response = true ->
    arrayBuffer response = Normal buffer ->
    pdfParse w buffer = Pending ->
    stalled w req [Fetch url; ArrayBuffer; PdfParse buffer].

(** What the [try] block does: one of its three [return]s, a throw, or a
    wait without end. *)
Inductive tried (w : World) (req : Request) : Async unit -> Prop :=
| tried_missing (url : value) :
    read_fileURL w req = ret url -> truthy url = false ->
    tried w req ([Respond 400 missing_parameter], Normal tt)
| tried_not_ok (url : value) (response : FetchResponse) :
    read_fileURL w req = ret url -> truthy url = true ->
    fetch w url = Normal response -> ok response = false ->
    tried w req ([Fetch url; Respond 400 unable_to_fetch], Normal tt)
| tried_success (url : value) (response : FetchResponse)
    (buffer : list Byte.byte) (data : value) (text : jsstring) :
    read_fileURL w req = ret url -> truthy url = true ->
    fetch w url = Normal response -> ok response = true ->
    arrayBuffer response = Normal buffer ->
    pdfParse w buffer = Normal data ->
    extract_text w data = ret (VString text) ->
    no_outer_white_space text ->
    tried w req
      ([Fetch url; ArrayBuffer; PdfParse buffer;
        Respond 200 (success_envelope (VString text))], Normal tt)
| tried_thrown (calls : list Event) (e : value) :
    thrown w req calls e ->
    tried w req (calls, Throw e)
| tried_stalled (calls : list Event) :
    stalled w req calls ->
    tried w req (calls, Pending).

End Handler.

(* ================================================================= *)
(** ** A concrete world *)

(** One origin server, one parser and a few requests, on which the
    definitions above run. *)
Module Scenario.

Fixpoint bytes_eqb (a b : list Byte.byte) : bool :=
  match a, b with
  | [], [] => true
  | x :: a', y :: b' => Byte.eqb x y && bytes_eqb a' b'
  | _, _ => false
  end.

Definition hello_url : jsstring := lit "https://example.com/hello.pdf".
Definition scan_url : jsstring := lit "https://example.com/scan.pdf".
Definition notes_url : jsstring := lit "https://example.com/notes.txt".
Definition nonexistent_url : jsstring := lit "https://example.com/nonexistent.pdf".
Definition broken_url : jsstring := lit "https://example.com/broken.pdf".
Definition unresolved_url : jsstring := lit "https://nowhere.invalid/a.pdf".

Definition hello_pdf : list Byte.byte := list_byte_of_string "%PDF-1.4 (Hello World)".
Definition scan_pdf : list Byte.byte := list_byte_of_string "%PDF-1.4 <image>".
Definition notes_txt : list Byte.byte := list_byte_of_string "plain notes".

(** An error object with its own [name] and [message]. *)
Definition error_object (name message : string) : value :=
  VObject ErrorPrototype
    [(lit "name", VString (lit name)); (lit "message", VString (lit message))].

Definition dns_failure : value :=
  error_object "FetchError"
    "request to https://nowhere.invalid/a.pdf failed, reason: getaddrinfo ENOTFOUND nowhere.invalid".

Definition invalid_pdf : value :=
  error_object "InvalidPDFException" "Invalid PDF structure".

Definition relative_url : value :=
  error_object "TypeError" "Only absolute URLs are supported".

Definition origin (url : value) : Completion FetchResponse :=
  match url with
  | VString u =>
      if jsstring_eqb u hello_url then
        Normal {| status := 200; arrayBuffer := Normal hello_pdf |}
      else if jsstring_eqb u scan_url then
        Normal {| status := 200; arrayBuffer := Normal scan_pdf |}
      else if jsstring_eqb u notes_url then
        Normal {| status := 200; arrayBuffer := Normal notes_txt |}
      else if jsstring_eqb u nonexistent_url then
        Normal {| status := 404; arrayBuffer := Normal [] |}
      else if jsstring_eqb u broken_url then
        Normal {| status := 500; arrayBuffer := Normal [] |}
      else if jsstring_eqb u unresolved_url then
        Throw dns_failure
      else Throw relative_url
  | _ => Throw relative_url
  end.

(** The parser starts the text of every page with two line feeds. *)
Definition hello_text : jsstring := [10; 10]%N ++ lit "Hello World".
Definition scan_text : jsstring := [10; 10]%N.

Definition hello_data : value :=
  VObject ObjectPrototype
    [(lit "numpages", VNumber 1); (lit "text", VString hello_text)].

Definition scan_data : value :=
  VObject ObjectPrototype
    [(lit "numpages", VNumber 1); (lit "text", VString scan_text)].

Definition parser (buffer : list Byte.byte) : Completion value :=
  if bytes_eqb buffer hello_pdf then Normal hello_data
  else if bytes_eqb buffer scan_pdf then Normal scan_data
  else Throw invalid_pdf.

Definition v8_message (f : EngineFault) : jsstring :=
  match f with
  | ReadOfNullish => lit "Cannot read properties of undefined"
  | NotAFunction => lit "data?.text?.trim is not a function"
  | NotPrimitive => lit "Cannot convert object to primitive value"
  end.

Definition world : World :=
  {| fetch := origin; pdfParse := parser; engine_message := v8_message |}.

(** A client that rejects every request with [e], and a parser that
    rejects every document with [e]. *)
Definition rejecting_client (e : value) : World :=
  {| fetch := fun _ => Throw e; pdfParse := parser;
     engine_message := v8_message |}.

Definition rejecting_parser (e : value) : World :=
  {| fetch := origin; pdfParse := fun _ => Throw e;
     engine_message := v8_message |}.

(** An origin that answers 200 and then never completes the body: the
    buffering does not settle. *)
Definition truncating : World :=
  {| fetch := fun _ => Normal {| status := 200; arrayBuffer := Pending |};
     pdfParse := parser; engine_message := v8_message |}.

(** A thrown object that [String] cannot render: [{toString: null}]. *)
Definition unrenderable : value :=
  VObject ObjectPrototype [(lit "toString", VNull)].

(** A thrown object whose [message] is a number. *)
Definition numbered_fault : value :=
  VObject ObjectPrototype [(lit "message", VNumber 42)].

(** [GET /api/ocr-summarize?fileURL=<url>] *)
Definition GET (url : jsstring) : Request :=
  {| query_fileURL := VString url; body := Normal VUndefined |}.

(** [GET /api/ocr-summarize] *)
Definition GET_bare : Request :=
  {| query_fileURL := VUndefined; body := Normal VUndefined |}.

(** [POST /api/ocr-summarize] with the JSON payload [{"fileURL": v}]; the
    query string holds [q]. *)
Definition POST (q v : value) : Request :=
  {| query_fileURL := q;
     body := Normal (VObject ObjectPrototype [(lit "fileURL", v)]) |}.

(** What the body parser of the platform throws on a malformed JSON
    payload. *)
Definition invalid_json : value := error_object "Error" "Invalid JSON".

(** [POST /api/ocr-summarize?fileURL=<q>] with a malformed JSON payload. *)
Definition POST_malformed (q : value) : Request :=
  {| query_fileURL := q; body := Throw invalid_json |}.

(** [POST /api/ocr-summarize] with the JSON payload [null]. *)
Definition POST_null : Request :=
  {| query_fileURL := VUndefined; body := Normal VNull |}.

(** A parser whose result holds a number as [text]. *)
Definition numbered_text : value := VNumber 7.

Definition numbered_data : value :=
  VObject ObjectPrototype [(lit "text", numbered_text)].

Definition numbering_parser : World :=
  {| fetch := origin; pdfParse := fun _ => Normal numbered_data;
     engine_message := v8_message |}.

(** An error object with an empty message. *)
Definition aborted : value := error_object "AbortError" "".

(** A parser that adds no white space around the text. *)
Definition plain_data : value :=
  VObject ObjectPrototype [(lit "text", VString (lit "Hello World"))].

Definition plain_parser : World :=
  {| fetch := origin; pdfParse := fun _ => Normal plain_data;
     engine_message := v8_message |}.

End Scenario.

(* ================================================================= *)
(** ** Properties of [trim] *)

Unset Implicit Arguments.

Lemma trimStart_split (s : jsstring) :
  exists pre, s = pre ++ trimStart s /\ blank pre.
Proof.
  induction s as [|c s IH]; simpl.
  - exists []; split; [reflexivity | constructor].
  - destruct (is_white_space c) eqn:Hc.
    + destruct IH as (pre & Hs & Hpre).
      exists (c :: pre); split.
      * simpl; congruence.
      * constructor; assumption.
    + exists []; split; [reflexivity | constructor].
Qed.

Lemma trimStart_head (s : jsstring) (c : N) (s' : jsstring) :
  trimStart s = c :: s' -> is_white_space c = false.
Proof.
  induction s as [|d s IH]; simpl; [discriminate|].
  destruct (is_white_space d) eqn:Hd; [exact IH|].
  intros H; injection H as -> _; exact Hd.
Qed.

Lemma trimStart_blank (s : jsstring) : blank s -> trimStart s = [].
Proof.
  induction 1 as [|c s Hc _ IH]; simpl; [reflexivity|].
  rewrite Hc; exact IH.
Qed.

Lemma blank_rev (s : jsstring) : blank s -> blank (rev s).
Proof.
  unfold blank; rewrite !Forall_forall; intros H c Hin.
  apply H, in_rev, Hin.
Qed.

Lemma trimEnd_split (s : jsstring) :
  exists post, s = trimEnd s ++ post /\ blank post.
Proof.
  unfold trimEnd.
  destruct (trimStart_split (rev s)) as (pre & Hs & Hpre).
  exists (rev pre); split.
  - rewrite <- rev_app_distr, <- Hs, rev_involutive; reflexivity.
  - apply blank_rev, Hpre.
Qed.

Lemma trimEnd_last (s : jsstring) (c : N) (s' : jsstring) :
  trimEnd s = s' ++ [c] -> is_white_space c = false.
Proof.
  unfold trimEnd; intros H.
  apply (f_equal (@rev N)) in H.
  rewrite rev_involutive, rev_app_distr in H; simpl in H.
  exact (trimStart_head _ _ _ H).
Qed.

(** [trim] removes a blank prefix and a blank suffix, and no more. *)
Lemma trim_split (s : jsstring) :
  exists pre post, s = pre ++ trim s ++ post /\ blank pre /\ blank post.
Proof.
  destruct (trimStart_split s) as (pre & Hs & Hpre).
  destruct (trimEnd_split (trimStart s)) as (post & Hu & Hpost).
  exists pre, post; repeat split; try assumption.
  unfold trim; rewrite <- Hu; exact Hs.
Qed.

Lemma trim_no_outer_white_space (s : jsstring) :
  no_outer_white_space (trim s).
Proof.
  split; intros c s' H.
  - destruct (trimEnd_split (trimStart s)) as (post & Hu & _).
    fold (trim s) in Hu; rewrite H in Hu; simpl in Hu.
    exact (trimStart_head _ _ _ Hu).
  - exact (trimEnd_last (trimStart s) c s' H).
Qed.

Lemma trim_blank (s : jsstring) : blank s -> trim s = [].
Proof.
  intros H; unfold trim, trimEnd.
  rewrite (trimStart_blank s H); reflexivity.
Qed.

(* ================================================================= *)
(** ** Properties of the handler *)

Arguments lit : simpl never.

Section Properties.
Context {NUM : NumberOps}.

Notation "x <- m ;; k" := (bind m (fun x => k))
  (at level 61, m at next level, right associativity).

Lemma bind_ret_l {A B} (a : A) (k : A -> Async B) : bind (ret a) k = k a.
Proof. unfold bind, ret; destruct (k a); reflexivity. Qed.

Lemma bind_eval_normal {A B} (a : A) (k : A -> Async B) :
  bind (eval (Normal a)) k = k a.
Proof. exact (bind_ret_l a k). Qed.

Lemma bind_await_normal {A B} (ev : Event) (a : A) (k : A -> Async B) :
  bind (await ev (Normal a)) k = (ev :: fst (k a), snd (k a)).
Proof. unfold bind, await; destruct (k a); reflexivity. Qed.

Lemma bind_await_throw {A B} (ev : Event) (e : value) (k : A -> Async B) :
  bind (await ev (Throw e)) k = ([ev], Throw e).
Proof. reflexivity. Qed.

Section Invocation.
Variable w : World.
Variable req : Request.

(** *** Which [fileURL] is used *)

Lemma read_fileURL_query :
  truthy (query_fileURL req) = true ->
  read_fileURL w req = ret (query_fileURL req).
Proof. intros H; unfold read_fileURL, or_else; rewrite H; reflexivity. Qed.

Lemma read_fileURL_body_falsy (b : value) :
  truthy (query_fileURL req) = false ->
  body req = Normal b -> truthy b = false ->
  read_fileURL w req = ret b.
Proof.
  intros Hq Hb Hf; unfold read_fileURL, or_else, and_then.
  rewrite Hq, Hb, bind_eval_normal, Hf; reflexivity.
Qed.

Lemma read_fileURL_body_field (b x : value) :
  truthy (query_fileURL req) = false ->
  body req = Normal b -> truthy b = true ->
  property b (lit "fileURL") = Some x ->
  read_fileURL w req = ret x.
Proof.
  intros Hq Hb Ht Hx; unfold read_fileURL, or_else, and_then, get.
  rewrite Hq, Hb, bind_eval_normal, Ht, bind_eval_normal, Hx; reflexivity.
Qed.

Lemma read_fileURL_body_throws (e : value) :
  truthy (query_fileURL req) = false ->
  body req = Throw e ->
  read_fileURL w req = ([], Throw e).
Proof.
  intros Hq Hb; unfold read_fileURL, or_else.
  rewrite Hq, Hb; reflexivity.
Qed.

(** A truthy value has properties: it is neither [null] nor [undefined]. *)
Lemma truthy_property (b : value) (k : jsstring) :
  truthy b = true -> exists x, property b k = Some x.
Proof.
  destruct b as [| | | | | |proto props]; simpl; try discriminate; eauto.
  destruct (own_property k props), proto; eauto.
Qed.

Lemma ok_false (response : FetchResponse) :
  ~ (200 <= status response < 300) -> ok response = false.
Proof.
  intros H; unfold ok.
  destruct (Z.leb_spec 200 (status response)) as [Hlo|Hlo]; [|reflexivity].
  destruct (Z.ltb_spec (status response) 300) as [Hhi|Hhi]; [|reflexivity].
  exfalso; apply H; lia.
Qed.

(** *** The four ways out of the [try] block *)

Lemma handler_missing (url : value) :
  read_fileURL w req = ret url -> truthy url = false ->
  handler w req = ([Respond 400 missing_parameter], Normal tt).
Proof.
  intros Hu Hf; unfold handler, try_block.
  rewrite Hu, bind_ret_l, Hf; reflexivity.
Qed.

Lemma handler_not_ok (url : value) (response : FetchResponse) :
  read_fileURL w req = ret url -> truthy url = true ->
  fetch w url = Normal response -> ok response = false ->
  handler w req = ([Fetch url; Respond 400 unable_to_fetch], Normal tt).
Proof.
  intros Hu Ht Hf Hok; unfold handler, try_block.
  rewrite Hu, bind_ret_l, Ht; simpl negb; cbv iota.
  rewrite Hf, bind_await_normal, Hok; reflexivity.
Qed.

(** The [try] block once the document is fetched, buffered and parsed. *)
Lemma try_block_parsed (url : value) (response : FetchResponse)
    (buffer : list Byte.byte) (data : value) :
  read_fileURL w req = ret url -> truthy url = true ->
  fetch w url = Normal response -> ok response = true ->
  arrayBuffer response = Normal buffer ->
  pdfParse w buffer = Normal data ->
  try_block w req =
    (Fetch url :: ArrayBuffer :: PdfParse buffer ::
       fst (extractedText <- extract_text w data ;;
            respond 200 (success_envelope extractedText)),
     snd (extractedText <- extract_text w data ;;
          respond 200 (success_envelope extractedText))).
Proof.
  intros Hu Ht Hf Hok Hb Hp; unfold try_block.
  rewrite Hu, bind_ret_l, Ht; simpl negb; cbv iota.
  rewrite Hf, bind_await_normal, Hok; simpl negb; cbv iota.
  rewrite Hb, bind_await_normal, Hp, bind_await_normal; reflexivity.
Qed.

Lemma extract_text_string (data : value) (text : jsstring) :
  property data (lit "text") = Some (VString text) ->
  extract_text w data = ret (VString (trim text)).
Proof.
  intros H; unfold extract_text, get.
  assert (Hn : nullish data = false) by (destruct data; try reflexivity; discriminate).
  rewrite Hn, H, bind_eval_normal; reflexivity.
Qed.

Lemma extract_text_no_data (data : value) :
  nullish data = true -> extract_text w data = ret (VString []).
Proof. intros H; unfold extract_text; rewrite H; reflexivity. Qed.

Lemma extract_text_no_text (data text : value) :
  property data (lit "text") = Some text -> nullish text = true ->
  extract_text w data = ret (VString []).
Proof.
  intros H Ht; unfold extract_text, get.
  assert (Hn : nullish data = false) by (destruct data; try reflexivity; discriminate).
  rewrite Hn, H, bind_eval_normal, Ht; reflexivity.
Qed.

End Invocation.

(** *** The [catch] block *)

Lemma responses_app (t t' : list Event) :
  responses (t ++ t') = responses t ++ responses t'.
Proof.
  induction t as [|ev t IH]; simpl; [reflexivity|].
  destruct ev; simpl; rewrite IH; reflexivity.
Qed.

Lemma handler_catches (w : World) (req : Request) (t : list Event) (e : value) :
  try_block w req = (t, Throw e) ->
  handler w req = (t ++ fst (catch_block w e), snd (catch_block w e)).
Proof.
  intros H; unfold handler, try_catch; rewrite H.
  destruct (catch_block w e); reflexivity.
Qed.

Lemma catch_block_reports (w : World) (e error : value) :
  reported e = Some error ->
  catch_block w e = ([Respond 500 (error_envelope error)], Normal tt).
Proof.
  unfold reported, catch_block, get, or_else, String_.
  destruct (property e (lit "message")) as [message|]; [|discriminate].
  rewrite bind_eval_normal.
  destruct (truthy message).
  - intros [= ->]; reflexivity.
  - destruct (ToString e); [|discriminate].
    intros [= <-]; reflexivity.
Qed.

(** Where [err.message || String(err)] throws, the [catch] block throws in
    turn, and sends nothing. *)
Lemma catch_block_escapes (w : World) (e : value) :
  reported e = None ->
  exists fault,
    catch_block w e = ([], Throw (TypeError (engine_message w fault))).
Proof.
  unfold reported, catch_block, get, or_else, String_.
  destruct (property e (lit "message")) as [message|].
  - rewrite bind_eval_normal.
    destruct (truthy message); [discriminate|].
    destruct (ToString e); [discriminate|].
    intros _; exists NotPrimitive; reflexivity.
  - intros _; exists ReadOfNullish; reflexivity.
Qed.

(** Outside the contract [raises_reportable]: were [null] or [undefined]
    thrown, the read of its [message] would throw inside the [catch]
    block, and the handler would reject without a response of its own. *)
Lemma nullish_fault_escapes (w : World) (req : Request)
    (t : list Event) (e : value) :
  try_block w req = (t, Throw e) -> nullish e = true ->
  handler w req = (t, Throw (TypeError (engine_message w ReadOfNullish))).
Proof.
  intros H Hn; rewrite (handler_catches w req t e H).
  assert (Hc : catch_block w e =
               ([], Throw (TypeError (engine_message w ReadOfNullish)))).
  { destruct e; try discriminate; reflexivity. }
  rewrite Hc, app_nil_r; reflexivity.
Qed.

Lemma step_throws_try_block (w : World) (req : Request) (url e : value) :
  read_fileURL w req = ret url -> truthy url = true ->
  step_throws w url e ->
  exists t, try_block w req = (t, Throw e) /\ responses t = [].
Proof.
  intros Hu Ht Hs; unfold try_block.
  rewrite Hu, bind_ret_l, Ht; simpl negb; cbv iota.
  destruct Hs as [Hf | response Hf Hok Hb | response buffer Hf Hok Hb Hp].
  - rewrite Hf, bind_await_throw.
    exists [Fetch url]; split; reflexivity.
  - rewrite Hf, bind_await_normal, Hok; simpl negb; cbv iota.
    rewrite Hb, bind_await_throw.
    exists [Fetch url; ArrayBuffer]; split; reflexivity.
  - rewrite Hf, bind_await_normal, Hok; simpl negb; cbv iota.
    rewrite Hb, bind_await_normal, Hp, bind_await_throw.
    exists [Fetch url; ArrayBuffer; PdfParse buffer]; split; reflexivity.
Qed.

(** *** Every way through the [try] block *)

Lemma property_non_nullish (v : value) (k : jsstring) :
  nullish v = false -> exists x, property v k = Some x.
Proof.
  destruct v as [| | | | | |proto props]; simpl; try discriminate; eauto.
  destruct (own_property k props), proto; eauto.
Qed.

Lemma read_fileURL_paths (w : World) (req : Request) :
  (exists url, read_fileURL w req = ret url) \/
  (exists e, truthy (query_fileURL req) = false /\ body req = Throw e /\
             read_fileURL w req = ([], Throw e)) \/
  (truthy (query_fileURL req) = false /\ body req = Pending /\
   read_fileURL w req = ([], Pending)).
Proof.
  destruct (truthy (query_fileURL req)) eqn:Hq.
  - left; exists (query_fileURL req); apply read_fileURL_query, Hq.
  - destruct (body req) as [b|e|] eqn:Hb.
    + left; destruct (truthy b) eqn:Ht.
      * destruct (truthy_property b (lit "fileURL") Ht) as (x & Hx).
        exists x; exact (read_fileURL_body_field w req b x Hq Hb Ht Hx).
      * exists b; exact (read_fileURL_body_falsy w req b Hq Hb Ht).
    + right; left; exists e; repeat split.
      exact (read_fileURL_body_throws w req e Hq Hb).
    + right; right; repeat split.
      unfold read_fileURL, or_else; rewrite Hq, Hb; reflexivity.
Qed.

Lemma no_outer_white_space_nil : no_outer_white_space [].
Proof.
  split; intros c s' H; [discriminate|].
  destruct s'; discriminate.
Qed.

Lemma extract_text_paths (w : World) (data : value) :
  (exists s, extract_text w data = ret (VString s) /\
             no_outer_white_space s) \/
  (exists text,
     property data (lit "text") = Some text /\
     nullish text = false /\ is_string text = false /\
     extract_text w data =
       ([], Throw (TypeError (engine_message w NotAFunction)))).
Proof.
  destruct (nullish data) eqn:Hn.
  - left; exists []; split;
      [apply extract_text_no_data, Hn | apply no_outer_white_space_nil].
  - destruct (property_non_nullish data (lit "text") Hn) as (text & Ht).
    destruct (nullish text) eqn:Hnt.
    + left; exists []; split;
        [exact (extract_text_no_text w data text Ht Hnt)
        | apply no_outer_white_space_nil].
    + destruct (is_string text) eqn:Hs.
      * destruct text; try discriminate.
        left; exists (trim s); split;
          [exact (extract_text_string w data s Ht)
          | apply trim_no_outer_white_space].
      * right; exists text; repeat split; try assumption.
        unfold extract_text, get.
        rewrite Hn, Ht, bind_eval_normal, Hnt.
        destruct text; try discriminate; reflexivity.
Qed.

(** Every run of the [try] block is one of the listed paths. *)
Lemma try_block_tried (w : World) (req : Request) :
  tried w req (try_block w req).
Proof.
  unfold try_block.
  destruct (read_fileURL_paths w req)
    as [(url & Hu) | [(e & Hq & Hb & Hu) | (Hq & Hb & Hu)]]; rewrite Hu.
  2:{ apply tried_thrown, thrown_by_body; assumption. }
  2:{ apply tried_stalled, stalled_at_body; assumption. }
  rewrite bind_ret_l.
  destruct (truthy url) eqn:Ht; simpl negb; cbv iota.
  2:{ eapply tried_missing; eassumption. }
  destruct (fetch w url) as [response|e|] eqn:Hf.
  2:{ eapply tried_thrown, thrown_by_fetch; eassumption. }
  2:{ eapply tried_stalled, stalled_at_fetch; eassumption. }
  rewrite bind_await_normal.
  destruct (ok response) eqn:Hok; simpl negb; cbv iota.
  2:{ eapply tried_not_ok; eassumption. }
  destruct (arrayBuffer response) as [buffer|e|] eqn:Hbuf.
  2:{ eapply tried_thrown, thrown_by_buffering; eassumption. }
  2:{ eapply tried_stalled, stalled_at_buffering; eassumption. }
  rewrite bind_await_normal.
  destruct (pdfParse w buffer) as [data|e|] eqn:Hp.
  2:{ eapply tried_thrown, thrown_by_parser; eassumption. }
  2:{ eapply tried_stalled, stalled_at_parser; eassumption. }
  rewrite bind_await_normal.
  destruct (extract_text_paths w data)
    as [(s & Hs & Hw) | (text & Htext & Hnt & Hstr & Hs)]; rewrite Hs.
  - rewrite bind_ret_l; eapply tried_success; eassumption.
  - eapply tried_thrown, thrown_by_trim; eassumption.
Qed.

Lemma fetches_app (t t' : list Event) :
  fetches (t ++ t') = fetches t ++ fetches t'.
Proof.
  induction t as [|ev t IH]; simpl; [reflexivity|].
  destruct ev; simpl; rewrite IH; reflexivity.
Qed.

Lemma ret_inj (a b : value) : @ret NUM value a = ret b -> a = b.
Proof. intros H; injection H; auto. Qed.

(** What the handler does on each path: a [return] of the [try] block
    stands; a thrown value is reported by the [catch] block where
    [err.message || String(err)] has a value, and otherwise the [catch]
    block throws in turn; a call that does not settle leaves the
    invocation waiting. *)
Lemma handler_paths (w : World) (req : Request) :
  (exists t, tried w req (t, Normal tt) /\ handler w req = (t, Normal tt)) \/
  (exists calls e error,
     thrown w req calls e /\ reported e = Some error /\
     handler w req =
       (calls ++ [Respond 500 (error_envelope error)], Normal tt)) \/
  (exists calls e fault,
     thrown w req calls e /\ reported e = None /\
     handler w req =
       (calls, Throw (TypeError (engine_message w fault)))) \/
  (exists calls, stalled w req calls /\ handler w req = (calls, Pending)).
Proof.
  pose proof (try_block_tried w req) as H.
  destruct (try_block w req) as [t [[]|e|]] eqn:Htry.
  - left; exists t; split; [exact H|].
    unfold handler; rewrite Htry; reflexivity.
  - right.
    assert (Ht : thrown w req t e) by (inversion H; assumption).
    rewrite (handler_catches w req t e Htry).
    destruct (reported e) as [error|] eqn:Hr.
    + left; exists t, e, error; repeat split; try assumption.
      rewrite (catch_block_reports w e error Hr); reflexivity.
    + right; left.
      destruct (catch_block_escapes w e Hr) as (fault & Hc).
      exists t, e, fault; repeat split; try assumption.
      rewrite Hc, app_nil_r; reflexivity.
  - right; right; right; exists t; split; [inversion H; assumption|].
    unfold handler; rewrite Htry; reflexivity.
Qed.

(** The calls made before a throw: no response among them, and either
    nothing at all (the read of the body threw) or one fetch, of the
    [fileURL], followed by the later steps. *)
Lemma thrown_calls (w : World) (req : Request) (calls : list Event) (e : value) :
  thrown w req calls e ->
  (forall s b, ~ In (Respond s b) calls) /\
  ((calls = [] /\ truthy (query_fileURL req) = false /\ body req = Throw e) \/
   (exists url,
      read_fileURL w req = ret url /\ truthy url = true /\
      fetches calls = [url] /\
      (calls = [Fetch url] \/ calls = [Fetch url; ArrayBuffer] \/
       exists response buffer,
         fetch w url = Normal response /\ ok response = true /\
         arrayBuffer response = Normal buffer /\
         calls = [Fetch url; ArrayBuffer; PdfParse buffer]))).
Proof.
  intros H; split.
  - intros s b Hin; inversion H; subst; simpl in Hin;
      repeat (destruct Hin as [Hin|Hin]; [discriminate|]); exact Hin.
  - inversion H; subst.
    + left; auto.
    + right; exists url; repeat split; auto.
    + right; exists url; repeat split; auto.
    + right; exists url; repeat split; auto.
      right; right; exists response, buffer; auto.
    + right; exists url; repeat split; auto.
      right; right; exists response, buffer; auto.
Qed.

(** The calls made before a wait without end, likewise. *)
Lemma stalled_calls (w : World) (req : Request) (calls : list Event) :
  stalled w req calls ->
  (forall s b, ~ In (Respond s b) calls) /\
  ((calls = [] /\ truthy (query_fileURL req) = false /\ body req = Pending) \/
   (exists url,
      read_fileURL w req = ret url /\ truthy url = true /\
      fetches calls = [url] /\
      (calls = [Fetch url] \/ calls = [Fetch url; ArrayBuffer] \/
       exists response buffer,
         fetch w url = Normal response /\ ok response = true /\
         arrayBuffer response = Normal buffer /\
         calls = [Fetch url; ArrayBuffer; PdfParse buffer]))).
Proof.
  intros H; split.
  - intros s b Hin; inversion H; subst; simpl in Hin;
      repeat (destruct Hin as [Hin|Hin]; [discriminate|]); exact Hin.
  - inversion H; subst.
    + left; auto.
    + right; exists url; repeat split; auto.
    + right; exists url; repeat split; auto.
    + right; exists url; repeat split; auto.
      right; right; exists response, buffer; auto.
Qed.

(** The responses an invocation can send, each with the path that leads
    to it. *)
Lemma response_paths (w : World) (req : Request) (s : Z) (b : value) :
  In (Respond s b) (fst (handler w req)) ->
  (exists url,
     read_fileURL w req = ret url /\ truthy url = false /\
     s = 400 /\ b = missing_parameter) \/
  (exists url response,
     read_fileURL w req = ret url /\ truthy url = true /\
     fetch w url = Normal response /\ ok response = false /\
     s = 400 /\ b = unable_to_fetch) \/
  (exists url response buffer data text,
     read_fileURL w req = ret url /\ truthy url = true /\
     fetch w url = Normal response /\ ok response = true /\
     arrayBuffer response = Normal buffer /\
     pdfParse w buffer = Normal data /\
     no_outer_white_space text /\
     s = 200 /\ b = success_envelope (VString text) /\
     fst (handler w req) =
       [Fetch url; ArrayBuffer; PdfParse buffer; Respond 200 b]) \/
  (exists calls e error,
     thrown w req calls e /\ reported e = Some error /\
     s = 500 /\ b = error_envelope error).
Proof.
  destruct (handler_paths w req)
    as [(t & Ht & Hh)
       | [(calls & e & error & Ht & Hm & Hh)
         | [(calls & e & fault & Ht & _ & Hh) | (calls & Ht & Hh)]]];
    rewrite Hh; simpl fst; intros Hin.
  - inversion Ht; subst; simpl in Hin;
      repeat (destruct Hin as [Hin|Hin]; try discriminate);
      try contradiction; injection Hin as <- <-.
    + left; exists url; repeat split; assumption.
    + right; left; exists url, response; repeat split; assumption.
    + right; right; left; exists url, response, buffer, data, text.
      repeat match goal with |- _ /\ _ => split end;
        try assumption; reflexivity.
  - apply in_app_or in Hin; destruct Hin as [Hin | [Hin | []]].
    + destruct (thrown_calls w req calls e Ht) as (Hno & _).
      destruct (Hno s b Hin).
    + injection Hin as <- <-.
      right; right; right; exists calls, e, error; repeat split; assumption.
  - destruct (thrown_calls w req calls e Ht) as (Hno & _).
    destruct (Hno s b Hin).
  - destruct (stalled_calls w req calls Ht) as (Hno & _).
    destruct (Hno s b Hin).
Qed.

Lemma reportable_TypeError (message : jsstring) :
  reportable (TypeError message) = true.
Proof. destruct message; reflexivity. Qed.

Lemma reported_spec (e message : value) :
  property e (lit "message") = Some message ->
  (truthy message = false -> ToString e <> None) ->
  exists error,
    reported e = Some error /\
    (truthy message = true -> error = message) /\
    (forall s, truthy message = false -> ToString e = Some s ->
               error = VString s).
Proof.
  intros Hm Hs; unfold reported; rewrite Hm.
  destruct (truthy message).
  - exists message; repeat split; auto; discriminate.
  - destruct (ToString e) as [s|]; [|destruct (Hs eq_refl eq_refl)].
    exists (VString s); repeat split; try discriminate.
    intros s' _ [= ->]; reflexivity.
Qed.

Lemma thrown_reportable (w : World) (req : Request)
    (calls : list Event) (e : value) :
  raises_reportable w req -> thrown w req calls e -> reportable e = true.
Proof.
  intros [Hbody Hfetch Hbuf Hparse] H; inversion H; subst.
  - apply Hbody; assumption.
  - eapply Hfetch; eassumption.
  - eapply Hbuf; eassumption.
  - eapply Hparse; eassumption.
  - apply reportable_TypeError.
Qed.

Lemma settles_not_stalled (w : World) (req : Request) (calls : list Event) :
  settles w req -> stalled w req calls -> False.
Proof.
  intros [Hbody Hfetch Hbuf Hparse] H; inversion H; subst.
  - apply Hbody; assumption.
  - eapply Hfetch; eassumption.
  - eapply Hbuf; eassumption.
  - eapply Hparse; eassumption.
Qed.

Lemma envelope_members (st : Z) (b : value) :
  envelope st b ->
  (member "ok" b = Some (VBool true) <-> st = 200) /\
  ~ (member "text" b <> None /\ member "error" b <> None).
Proof.
  intros [text | error | error]; split;
    try (split; [discriminate | intros H; exfalso; lia]);
    try (split; reflexivity).
  - intros [_ H]; apply H; reflexivity.
  - intros [H _]; apply H; reflexivity.
  - intros [H _]; apply H; reflexivity.
Qed.

(** *** The contract, claim by claim *)

(** C7 (as amended): the [fileURL] the handler uses is the value of the
    query parameter whenever that value is truthy, that is present and not
    the empty string; when the query parameter is absent or empty it is the
    body itself if the body is falsy, and the [fileURL] property of the
    body otherwise. *)
Theorem fileURL_source (w : World) (req : Request) :
  (truthy (query_fileURL req) = true ->
   read_fileURL w req = ret (query_fileURL req)) /\
  (truthy (query_fileURL req) = false ->
   forall b, body req = Normal b ->
     (truthy b = false -> read_fileURL w req = ret b) /\
     (truthy b = true ->
      exists x, property b (lit "fileURL") = Some x /\
                read_fileURL w req = ret x)).
Proof.
  split.
  - apply read_fileURL_query.
  - intros Hq b Hb; split.
    + apply read_fileURL_body_falsy; assumption.
    + intros Ht.
      destruct (truthy_property b (lit "fileURL") Ht) as (x & Hx).
      exists x; split; [exact Hx|].
      exact (read_fileURL_body_field w req b x Hq Hb Ht Hx).
Qed.

(** C2: a request with no [fileURL] in the query string and none in the
    body is answered 400 with [{ok: false, error: "Missing fileURL
    parameter"}], and no fetch is issued. *)
Theorem missing_fileURL_rejected (w : World) (req : Request) (b : value) :
  query_fileURL req = VUndefined ->
  body req = Normal b ->
  body_lacks_fileURL b ->
  handler w req = ([Respond 400 missing_parameter], Normal tt) /\
  fetches (fst (handler w req)) = [].
Proof.
  intros Hq Hb Hl.
  assert (Hf : truthy (query_fileURL req) = false) by (rewrite Hq; reflexivity).
  assert (H : handler w req = ([Respond 400 missing_parameter], Normal tt)).
  { destruct Hl as [Hl | Hl].
    - apply handler_missing with (url := b); [|exact Hl].
      apply read_fileURL_body_falsy; assumption.
    - destruct (truthy b) eqn:Ht.
      + apply handler_missing with (url := VUndefined); [|reflexivity].
        apply read_fileURL_body_field with (b := b); assumption.
      + apply handler_missing with (url := b); [|exact Ht].
        apply read_fileURL_body_falsy; assumption. }
  split; [exact H | rewrite H; reflexivity].
Qed.

(** C10: a [fileURL] that is the empty string in each source supplying it
    is treated as missing: 400, [{ok: false, error: "Missing fileURL
    parameter"}], and no fetch is issued. *)
Theorem empty_fileURL_rejected (w : World) (req : Request) :
  empty_fileURL req ->
  handler w req = ([Respond 400 missing_parameter], Normal tt) /\
  fetches (fst (handler w req)) = [].
Proof.
  intros He.
  assert (H : handler w req = ([Respond 400 missing_parameter], Normal tt)).
  { assert (Hobj : forall b, property b (lit "fileURL") = Some (VString []) ->
                             truthy b = true).
    { intros b; destruct b; simpl; try discriminate; reflexivity. }
    destruct He as [b Hq Hb Hp | b Hq Hb Hl | b Hq Hb Hp].
    - apply handler_missing with (url := VString []); [|reflexivity].
      apply read_fileURL_body_field with (b := b); auto.
      rewrite Hq; reflexivity.
    - assert (Hf : truthy (query_fileURL req) = false) by (rewrite Hq; reflexivity).
      destruct Hl as [Hl | Hl].
      + apply handler_missing with (url := b); [|exact Hl].
        apply read_fileURL_body_falsy; assumption.
      + destruct (truthy b) eqn:Ht.
        * apply handler_missing with (url := VUndefined); [|reflexivity].
          apply read_fileURL_body_field with (b := b); assumption.
        * apply handler_missing with (url := b); [|exact Ht].
          apply read_fileURL_body_falsy; assumption.
    - apply handler_missing with (url := VString []); [|reflexivity].
      apply read_fileURL_body_field with (b := b); auto.
      rewrite Hq; reflexivity. }
  split; [exact H | rewrite H; reflexivity].
Qed.

(** C3: when the fetch of the [fileURL] completes with a status outside
    200-299, whatever that status, the answer is 400 with [{ok: false,
    error: "Unable to fetch file from provided URL"}]; the body of the
    fetched response is not read. *)
Theorem unsuccessful_fetch_rejected (w : World) (req : Request)
    (url : value) (response : FetchResponse) :
  read_fileURL w req = ret url -> truthy url = true ->
  fetch w url = Normal response ->
  ~ (200 <= status response < 300) ->
  ok response = false /\
  handler w req = ([Fetch url; Respond 400 unable_to_fetch], Normal tt).
Proof.
  intros Hu Ht Hf Hs.
  assert (Hok : ok response = false) by exact (ok_false response Hs).
  split; [exact Hok|].
  unfold handler, try_block.
  rewrite Hu, bind_ret_l, Ht; simpl negb; cbv iota.
  rewrite Hf, bind_await_normal, Hok; reflexivity.
Qed.

(** C1: when the fetch of the [fileURL] succeeds and the bytes parse to a
    document with text [text], the answer is 200 with [{ok: true, text:
    t}], where [t] is [text] without its leading and trailing white
    space. *)
Theorem parsed_text_returned (w : World) (req : Request)
    (url : value) (response : FetchResponse) (buffer : list Byte.byte)
    (data : value) (text : jsstring) :
  read_fileURL w req = ret url -> truthy url = true ->
  fetch w url = Normal response -> ok response = true ->
  arrayBuffer response = Normal buffer ->
  pdfParse w buffer = Normal data ->
  property data (lit "text") = Some (VString text) ->
  exists t pre post,
    handler w req =
      ([Fetch url; ArrayBuffer; PdfParse buffer;
        Respond 200
          (VObject ObjectPrototype
             [(lit "ok", VBool true); (lit "text", VString t)])],
       Normal tt) /\
    text = pre ++ t ++ post /\ blank pre /\ blank post /\
    no_outer_white_space t.
Proof.
  intros Hu Ht Hf Hok Hb Hp Htext.
  destruct (trim_split text) as (pre & post & Hsplit & Hpre & Hpost).
  exists (trim text), pre, post; repeat split; try assumption.
  - unfold handler.
    rewrite (try_block_parsed w req url response buffer data Hu Ht Hf Hok Hb Hp).
    rewrite (extract_text_string w data text Htext), bind_ret_l; reflexivity.
  - apply trim_no_outer_white_space.
  - apply trim_no_outer_white_space.
Qed.

(** C6: when the fetch succeeds and the parse yields no text (no result,
    no [text] property, or only white space), the answer is still 200,
    with [{ok: true, text: ""}]. *)
Theorem empty_text_is_success (w : World) (req : Request)
    (url : value) (response : FetchResponse) (buffer : list Byte.byte)
    (data : value) :
  read_fileURL w req = ret url -> truthy url = true ->
  fetch w url = Normal response -> ok response = true ->
  arrayBuffer response = Normal buffer ->
  pdfParse w buffer = Normal data ->
  no_text data ->
  handler w req =
    ([Fetch url; ArrayBuffer; PdfParse buffer;
      Respond 200
        (VObject ObjectPrototype
           [(lit "ok", VBool true); (lit "text", VString [])])],
     Normal tt).
Proof.
  intros Hu Ht Hf Hok Hb Hp Hno.
  unfold handler.
  rewrite (try_block_parsed w req url response buffer data Hu Ht Hf Hok Hb Hp).
  assert (He : extract_text w data = ret (VString [])).
  { destruct Hno as [Hn | text Htext Hn | text Htext Hblank].
    - apply extract_text_no_data, Hn.
    - exact (extract_text_no_text w data text Htext Hn).
    - rewrite (extract_text_string w data text Htext), (trim_blank text Hblank).
      reflexivity. }
  rewrite He, bind_ret_l; reflexivity.
Qed.



(** C8 (as amended): in a world where every awaited call settles and the
    platform and the collaborators throw only reportable values (neither
    [null] nor [undefined], with a [message] that is a string or else
    falsy on a value [String] can render), an invocation returns after
    sending exactly one JSON response, which is 200 with [{ok: true, text:
    string}], 400 with [{ok: false, error: string}] or 500 with [{ok:
    false, error: string}]; [ok] is [true] exactly when the status is 200,
    and no response has both a [text] and an [error]. *)
Theorem exactly_one_envelope (w : World) (req : Request) :
  settles w req ->
  raises_reportable w req ->
  exists t st b,
    handler w req = (t, Normal tt) /\
    responses t = [(st, b)] /\
    envelope st b /\
    (member "ok" b = Some (VBool true) <-> st = 200) /\
    ~ (member "text" b <> None /\ member "error" b <> None).
Proof.
  intros Hsettles Hfaults.
  assert (Hgoal : exists t st b,
            handler w req = (t, Normal tt) /\
            responses t = [(st, b)] /\ envelope st b).
  { destruct (handler_paths w req)
      as [(t & Ht & Hh)
         | [(calls & e & error & Ht & Hr & Hh)
           | [(calls & e & fault & Ht & Hr & Hh) | (calls & Ht & Hh)]]].
    - inversion Ht; subst.
      + exists [Respond 400 missing_parameter], 400, missing_parameter.
        split; [exact Hh | split; [reflexivity | apply client_error]].
      + exists [Fetch url; Respond 400 unable_to_fetch], 400, unable_to_fetch.
        split; [exact Hh | split; [reflexivity | apply client_error]].
      + eexists _, 200, _.
        split; [exact Hh | split; [reflexivity | apply success]].
    - pose proof (thrown_reportable w req calls e Hfaults Ht) as He.
      unfold reportable in He; rewrite Hr in He.
      destruct error; try discriminate.
      destruct (thrown_calls w req calls e Ht) as (Hno & _).
      assert (Hnone : responses calls = []).
      { clear - Hno; induction calls as [|ev calls IH]; [reflexivity|].
        destruct ev; simpl;
          try (apply IH; intros s' b' Hin; apply (Hno s' b'); right; exact Hin).
        destruct (Hno status0 body0); left; reflexivity. }
      eexists _, 500, _.
      split; [exact Hh | split; [|apply server_error]].
      rewrite responses_app, Hnone; reflexivity.
    - pose proof (thrown_reportable w req calls e Hfaults Ht) as He.
      unfold reportable in He; rewrite Hr in He; discriminate.
    - destruct (settles_not_stalled w req calls Hsettles Ht). }
  destruct Hgoal as (t & st & b & Hh & Hr & Henv).
  exists t, st, b.
  destruct (envelope_members st b Henv) as (Hok & Hboth).
  repeat split; try assumption; apply Hok.
Qed.

End Properties.

(* ================================================================= *)
(** ** The contract on the concrete world *)

Import Scenario.

Lemma world_raises_reportable (q b : value) :
  raises_reportable world {| query_fileURL := q; body := Normal b |}.
Proof.
  split.
  - discriminate.
  - intros url e; simpl; unfold origin.
    destruct url; try (intros [= <-]; reflexivity).
    repeat match goal with
           | |- context [if ?c then _ else _] => destruct c
           end; try discriminate; intros [= <-]; reflexivity.
  - intros url response e; simpl; unfold origin.
    destruct url; try discriminate.
    repeat match goal with
           | |- context [if ?c then _ else _] => destruct c
           end; try discriminate; intros [= <-]; simpl;
      try discriminate; intros [= <-]; reflexivity.
  - intros buffer e; simpl; unfold parser.
    repeat match goal with
           | |- context [if ?c then _ else _] => destruct c
           end; try discriminate; intros [= <-]; reflexivity.
Qed.

Lemma world_settles (q b : value) :
  settles world {| query_fileURL := q; body := Normal b |}.
Proof.
  split.
  - discriminate.
  - intros url; simpl; unfold origin.
    destruct url; try discriminate.
    repeat match goal with
           | |- context [if ?c then _ else _] => destruct c
           end; discriminate.
  - intros url response; simpl; unfold origin.
    destruct url; try discriminate.
    repeat match goal with
           | |- context [if ?c then _ else _] => destruct c
           end; try discriminate; intros [= <-]; discriminate.
  - intros buffer; simpl; unfold parser.
    repeat match goal with
           | |- context [if ?c then _ else _] => destruct c
           end; discriminate.
Qed.

(** The five scenarios of the specification. *)
Example scenario_omitted :
  handler world GET_bare = ([Respond 400 missing_parameter], Normal tt).
Proof. reflexivity. Qed.

Example scenario_not_found :
  handler world (GET nonexistent_url) =
    ([Fetch (VString nonexistent_url); Respond 400 unable_to_fetch], Normal tt).
Proof. reflexivity. Qed.

Example scenario_hello_world :
  responses (fst (handler world (GET hello_url))) =
    [(200, success_envelope (VString (lit "Hello World")))].
Proof. reflexivity. Qed.

Example scenario_scanned :
  responses (fst (handler world (GET scan_url))) =
    [(200, success_envelope (VString []))].
Proof. reflexivity. Qed.

Example scenario_not_a_pdf :
  responses (fst (handler world (GET notes_url))) =
    [(500, error_envelope (VString (lit "Invalid PDF structure")))].
Proof. reflexivity. Qed.

(** What [String] makes of thrown values without a message. *)
Example thrown_string_reported :
  catch_block world (VString (lit "boom")) =
    ([Respond 500 (error_envelope (VString (lit "boom")))], Normal tt).
Proof. reflexivity. Qed.

Example bare_error_reported :
  catch_block world (VObject ErrorPrototype []) =
    ([Respond 500 (error_envelope (VString (lit "Error")))], Normal tt).
Proof. reflexivity. Qed.

Lemma parsed_text_returned_witness :
  exists t pre post,
    handler world (GET hello_url) =
      ([Fetch (VString hello_url); ArrayBuffer; PdfParse hello_pdf;
        Respond 200
          (VObject ObjectPrototype
             [(lit "ok", VBool true); (lit "text", VString t)])],
       Normal tt) /\
    hello_text = pre ++ t ++ post /\
    blank pre /\ blank post /\ no_outer_white_space t.
Proof.
  apply (parsed_text_returned world (GET hello_url) (VString hello_url)
           {| status := 200; arrayBuffer := Normal hello_pdf |} hello_pdf
           hello_data hello_text);
    reflexivity.
Defined.

Lemma missing_fileURL_rejected_witness :
  handler world GET_bare = ([Respond 400 missing_parameter], Normal tt) /\
  fetches (fst (handler world GET_bare)) = [].
Proof.
  apply (missing_fileURL_rejected world GET_bare VUndefined);
    [reflexivity | reflexivity | left; reflexivity].
Defined.

Lemma unsuccessful_fetch_rejected_witness :
  ok {| status := 404; arrayBuffer := Normal [] |} = false /\
  handler world (GET nonexistent_url) =
    ([Fetch (VString nonexistent_url); Respond 400 unable_to_fetch], Normal tt).
Proof.
  apply (unsuccessful_fetch_rejected world (GET nonexistent_url)
           (VString nonexistent_url)
           {| status := 404; arrayBuffer := Normal [] |});
    [reflexivity | reflexivity | reflexivity | simpl; lia].
Defined.





Lemma empty_text_is_success_witness :
  handler world (GET scan_url) =
    ([Fetch (VString scan_url); ArrayBuffer; PdfParse scan_pdf;
      Respond 200
        (VObject ObjectPrototype
           [(lit "ok", VBool true); (lit "text", VString [])])],
     Normal tt).
Proof.
  apply (empty_text_is_success world (GET scan_url) (VString scan_url)
           {| status := 200; arrayBuffer := Normal scan_pdf |} scan_pdf
           scan_data);
    try reflexivity.
  apply (@blank_text _ _ scan_text); [reflexivity|].
  repeat constructor.
Defined.

(** An empty query parameter is present, and yet the body supplies the
    location that is fetched. *)
Lemma empty_query_defers_to_body :
  query_fileURL (POST (VString []) (VString hello_url)) = VString [] /\
  read_fileURL world (POST (VString []) (VString hello_url)) =
    ret (VString hello_url) /\
  read_fileURL world (POST (VString []) (VString hello_url)) <>
    ret (query_fileURL (POST (VString []) (VString hello_url))) /\
  fetches (fst (handler world (POST (VString []) (VString hello_url)))) =
    [VString hello_url].
Proof. repeat split; try reflexivity; discriminate. Qed.

Lemma fileURL_source_witness :
  read_fileURL world (GET hello_url) = ret (VString hello_url) /\
  exists x,
    property (VObject ObjectPrototype [(lit "fileURL", VString scan_url)])
      (lit "fileURL") = Some x /\
    read_fileURL world (POST VUndefined (VString scan_url)) = ret x.
Proof.
  split.
  - apply (proj1 (fileURL_source world (GET hello_url))); reflexivity.
  - apply (proj2 (fileURL_source world (POST VUndefined (VString scan_url))));
      reflexivity.
Defined.

(** A body that never completes leaves the invocation waiting, without a
    response; so does, by a throw in the [catch] block, a parser that
    rejects with [undefined] or with an object that [String] cannot
    render; and one that rejects with a numbered message makes the
    [error] of the 500 a number. *)
Lemma unreportable_fault_breaks_envelope :
  (fetch truncating (VString hello_url) =
     Normal {| status := 200; arrayBuffer := Pending |} /\
   handler truncating (GET hello_url) =
     ([Fetch (VString hello_url); ArrayBuffer], Pending)) /\
  (pdfParse (rejecting_parser VUndefined) hello_pdf = Throw VUndefined /\
   responses (fst (handler (rejecting_parser VUndefined) (GET hello_url))) = []) /\
  (pdfParse (rejecting_parser unrenderable) hello_pdf = Throw unrenderable /\
   responses (fst (handler (rejecting_parser unrenderable) (GET hello_url))) = []) /\
  (pdfParse (rejecting_parser numbered_fault) hello_pdf = Throw numbered_fault /\
   responses (fst (handler (rejecting_parser numbered_fault) (GET hello_url))) =
     [(500, VObject ObjectPrototype
              [(lit "ok", VBool false); (lit "error", VNumber 42)])] /\
   ~ envelope 500
       (VObject ObjectPrototype
          [(lit "ok", VBool false); (lit "error", VNumber 42)])).
Proof.
  repeat split; try reflexivity.
  intros H; inversion H.
Qed.

Lemma exactly_one_envelope_witness :
  exists t st b,
    handler world (GET notes_url) = (t, Normal tt) /\
    responses t = [(st, b)] /\
    envelope st b /\
    (member "ok" b = Some (VBool true) <-> st = 200) /\
    ~ (member "text" b <> None /\ member "error" b <> None).
Proof.
  apply (exactly_one_envelope world (GET notes_url)).
  - apply world_settles.
  - apply world_raises_reportable.
Defined.

Lemma empty_fileURL_rejected_witness :
  handler world (POST (VString []) (VString [])) =
    ([Respond 400 missing_parameter], Normal tt) /\
  fetches (fst (handler world (POST (VString []) (VString [])))) = [].
Proof.
  apply (empty_fileURL_rejected world (POST (VString []) (VString []))).
  apply (@empty_in_both _ _
           (VObject ObjectPrototype [(lit "fileURL", VString [])]));
    reflexivity.
Defined.

(* ================================================================= *)
(** ** The paths through the handler, and what follows from them *)

Section Paths.
Context {NUM : NumberOps}.

(** X1: the calls of an invocation come in program order, each at most
    once: a fetch, then the buffering, then the parse, then one response;
    a later call never happens without the earlier ones, and nothing is
    called after the response. *)
Theorem calls_in_order (w : World) (req : Request) :
  exists calls,
    (exists url buffer,
       In calls [[]; [Fetch url]; [Fetch url; ArrayBuffer];
                 [Fetch url; ArrayBuffer; PdfParse buffer]]) /\
    (fst (handler w req) = calls \/
     exists s b, fst (handler w req) = calls ++ [Respond s b]).
Proof.
  assert (Hthrown : forall calls e, thrown w req calls e ->
            exists url buffer,
              In calls [[]; [Fetch url]; [Fetch url; ArrayBuffer];
                        [Fetch url; ArrayBuffer; PdfParse buffer]]).
  { intros calls e H.
    destruct (thrown_calls w req calls e H)
      as (_ & [(-> & _) | (url & _ & _ & _ & Hc)]).
    - exists VUndefined, []; simpl; auto.
    - destruct Hc as [-> | [-> | (response & buffer & _ & _ & _ & ->)]].
      + exists url, []; simpl; auto.
      + exists url, []; simpl; auto.
      + exists url, buffer; simpl; auto. }
  assert (Hstalled : forall calls, stalled w req calls ->
            exists url buffer,
              In calls [[]; [Fetch url]; [Fetch url; ArrayBuffer];
                        [Fetch url; ArrayBuffer; PdfParse buffer]]).
  { intros calls H.
    destruct (stalled_calls w req calls H)
      as (_ & [(-> & _) | (url & _ & _ & _ & Hc)]).
    - exists VUndefined, []; simpl; auto.
    - destruct Hc as [-> | [-> | (response & buffer & _ & _ & _ & ->)]].
      + exists url, []; simpl; auto.
      + exists url, []; simpl; auto.
      + exists url, buffer; simpl; auto. }
  destruct (handler_paths w req)
    as [(t & Ht & Hh)
       | [(calls & e & error & Ht & _ & Hh)
         | [(calls & e & fault & Ht & _ & Hh) | (calls & Ht & Hh)]]];
    rewrite Hh; simpl fst.
  - inversion Ht; subst.
    + exists []; split; [exists VUndefined, []; simpl; auto|].
      right; eexists _, _; reflexivity.
    + exists [Fetch url]; split; [exists url, []; simpl; auto|].
      right; eexists _, _; reflexivity.
    + exists [Fetch url; ArrayBuffer; PdfParse buffer]; split;
        [exists url, buffer; simpl; auto 6|].
      right; eexists _, _; reflexivity.
  - exists calls; split; [exact (Hthrown calls e Ht)|].
    right; eexists _, _; reflexivity.
  - exists calls; split; [exact (Hthrown calls e Ht)|].
    left; reflexivity.
  - exists calls; split; [exact (Hstalled calls Ht)|].
    left; reflexivity.
Qed.

(** X2: an invocation fetches at most once, and what it fetches is the
    [fileURL] it read, unvalidated: every truthy [fileURL] is fetched,
    whatever its type, and a falsy one never is. *)
Theorem fetches_the_fileURL (w : World) (req : Request) (url : value) :
  read_fileURL w req = ret url ->
  fetches (fst (handler w req)) = if truthy url then [url] else [].
Proof.
  intros Hu.
  assert (Hthrown : forall calls e, thrown w req calls e ->
            truthy url = true /\ fetches calls = [url]).
  { intros calls e H.
    destruct (thrown_calls w req calls e H)
      as (_ & [(_ & Hq & Hb) | (url' & Hu' & Ht & Hf & _)]).
    - rewrite (read_fileURL_body_throws w req e Hq Hb) in Hu; discriminate.
    - rewrite Hu in Hu'; apply ret_inj in Hu'; subst url'; auto. }
  assert (Hstalled : forall calls, stalled w req calls ->
            truthy url = true /\ fetches calls = [url]).
  { intros calls H.
    destruct (stalled_calls w req calls H)
      as (_ & [(_ & Hq & Hb) | (url' & Hu' & Ht & Hf & _)]).
    - destruct (read_fileURL_paths w req)
        as [(u & Hu') | [(e & _ & Hb' & _) | (_ & _ & Hu')]];
        [|congruence|rewrite Hu in Hu'; discriminate].
      unfold read_fileURL, or_else in Hu; rewrite Hq, Hb in Hu; discriminate.
    - rewrite Hu in Hu'; apply ret_inj in Hu'; subst url'; auto. }
  destruct (handler_paths w req)
    as [(t & Ht & Hh)
       | [(calls & e & error & Ht & _ & Hh)
         | [(calls & e & fault & Ht & _ & Hh) | (calls & Ht & Hh)]]];
    rewrite Hh; simpl fst.
  - inversion Ht; subst;
      match goal with
      | H : read_fileURL w req = ret ?u |- _ =>
          rewrite Hu in H; apply ret_inj in H; subst u
      end;
      match goal with
      | H : truthy url = _ |- _ => rewrite H
      end; reflexivity.
  - destruct (Hthrown calls e Ht) as (-> & Hf).
    rewrite fetches_app, Hf; reflexivity.
  - destruct (Hthrown calls e Ht) as (-> & Hf); exact Hf.
  - destruct (Hstalled calls Ht) as (-> & Hf); exact Hf.
Qed.

(** X3: a 200 is sent only at the end of the whole pipeline: the [fileURL]
    was truthy, its fetch returned a 2xx response, the body was buffered,
    the parser returned on exactly those bytes, and the [text] sent is a
    string with no white space at either end. *)
Theorem success_only_after_parse (w : World) (req : Request) (b : value) :
  In (Respond 200 b) (fst (handler w req)) ->
  exists url response buffer data text,
    read_fileURL w req = ret url /\ truthy url = true /\
    fetch w url = Normal response /\ ok response = true /\
    arrayBuffer response = Normal buffer /\
    pdfParse w buffer = Normal data /\
    b = success_envelope (VString text) /\
    no_outer_white_space text /\
    fst (handler w req) =
      [Fetch url; ArrayBuffer; PdfParse buffer; Respond 200 b].
Proof.
  intros Hin.
  destruct (response_paths w req 200 b Hin)
    as [(url & _ & _ & Hs & _)
       | [(url & response & _ & _ & _ & _ & Hs & _)
         | [(url & response & buffer & data & text & H)
           | (calls & e & m & _ & _ & Hs & _)]]];
    try discriminate.
  exists url, response, buffer, data, text.
  destruct H as (Hu & Ht & Hf & Hok & Hb & Hp & Hw & _ & Hbody & Htrace).
  repeat match goal with |- _ /\ _ => split end; assumption.
Qed.

(** X4: whatever the collaborators return or throw, a response that is
    sent has status 200, 400 or 500; its [ok] member is [true] exactly
    for 200; a 400 carries one of the two fixed messages and a 500 an
    error envelope. *)
Theorem response_statuses (w : World) (req : Request) (s : Z) (b : value) :
  In (Respond s b) (fst (handler w req)) ->
  member "ok" b = Some (VBool (s =? 200)) /\
  ((s = 200 /\ exists text, b = success_envelope (VString text)) \/
   (s = 400 /\ (b = missing_parameter \/ b = unable_to_fetch)) \/
   (s = 500 /\ exists error, b = error_envelope error)).
Proof.
  intros Hin.
  destruct (response_paths w req s b Hin)
    as [(url & _ & _ & -> & ->)
       | [(url & response & _ & _ & _ & _ & -> & ->)
         | [(url & response & buffer & data & text & H)
           | (calls & e & m & _ & _ & -> & ->)]]].
  - split; [reflexivity|]; right; left; auto.
  - split; [reflexivity|]; right; left; auto.
  - destruct H as (_ & _ & _ & _ & _ & _ & _ & -> & -> & _).
    split; [reflexivity|]; left; eauto.
  - split; [reflexivity|]; right; right; eauto.
Qed.

Lemma fixed_messages_differ : missing_parameter <> unable_to_fetch.
Proof. intros H; vm_compute in H; discriminate. Qed.

(** X5: the two fixed messages tell the two client errors apart: "Missing
    fileURL parameter" is sent exactly when the [fileURL] read is falsy,
    and "Unable to fetch file from provided URL" exactly when it is truthy
    and its fetch returns a response outside 200-299. *)
Theorem client_error_causes (w : World) (req : Request) (url : value) :
  read_fileURL w req = ret url ->
  (In (Respond 400 missing_parameter) (fst (handler w req)) <->
   truthy url = false) /\
  (In (Respond 400 unable_to_fetch) (fst (handler w req)) <->
   truthy url = true /\
   exists response, fetch w url = Normal response /\ ok response = false).
Proof.
  intros Hu; split; split.
  - intros Hin.
    destruct (response_paths w req 400 missing_parameter Hin)
      as [(url' & Hu' & Ht & _)
         | [(url' & response & _ & _ & _ & _ & _ & Hb)
           | [(url' & response & buffer & data & text & H)
             | (calls & e & m & _ & _ & Hs & _)]]].
    + rewrite Hu in Hu'; apply ret_inj in Hu'; subst url'; exact Ht.
    + destruct (fixed_messages_differ Hb).
    + destruct H as (_ & _ & _ & _ & _ & _ & _ & Hs & _); discriminate.
    + discriminate.
  - intros Ht.
    rewrite (handler_missing w req url Hu Ht); simpl; auto.
  - intros Hin.
    destruct (response_paths w req 400 unable_to_fetch Hin)
      as [(url' & _ & _ & _ & Hb)
         | [(url' & response & Hu' & Ht & Hf & Hok & _)
           | [(url' & response & buffer & data & text & H)
             | (calls & e & m & _ & _ & Hs & _)]]].
    + symmetry in Hb; destruct (fixed_messages_differ Hb).
    + rewrite Hu in Hu'; apply ret_inj in Hu'; subst url'; eauto.
    + destruct H as (_ & _ & _ & _ & _ & _ & _ & Hs & _); discriminate.
    + discriminate.
  - intros (Ht & response & Hf & Hok).
    rewrite (handler_not_ok w req url response Hu Ht Hf Hok); simpl; auto.
Qed.

(** X6: the parser is only ever called on the bytes of a fetched 2xx
    response: the body of a response outside 200-299 is never parsed. *)
Theorem parser_input_is_fetched (w : World) (req : Request)
    (buffer : list Byte.byte) :
  In (PdfParse buffer) (fst (handler w req)) ->
  exists url response,
    read_fileURL w req = ret url /\ truthy url = true /\
    fetch w url = Normal response /\ ok response = true /\
    arrayBuffer response = Normal buffer.
Proof.
  assert (Hcalls : forall calls,
            (exists url,
               read_fileURL w req = ret url /\ truthy url = true /\
               fetches calls = [url] /\
               (calls = [Fetch url] \/ calls = [Fetch url; ArrayBuffer] \/
                exists response buffer',
                  fetch w url = Normal response /\ ok response = true /\
                  arrayBuffer response = Normal buffer' /\
                  calls = [Fetch url; ArrayBuffer; PdfParse buffer'])) ->
            In (PdfParse buffer) calls ->
            exists url response,
              read_fileURL w req = ret url /\ truthy url = true /\
              fetch w url = Normal response /\ ok response = true /\
              arrayBuffer response = Normal buffer).
  { intros calls (url & Hu & Ht & _ & Hc) Hin.
    destruct Hc as [-> | [-> | (response & buffer' & Hf & Hok & Hb & ->)]];
      simpl in Hin;
      repeat (destruct Hin as [Hin|Hin]; try discriminate);
      try contradiction.
    injection Hin as <-; exists url, response; auto. }
  assert (Hthrown : forall calls e, thrown w req calls e ->
            In (PdfParse buffer) calls ->
            exists url response,
              read_fileURL w req = ret url /\ truthy url = true /\
              fetch w url = Normal response /\ ok response = true /\
              arrayBuffer response = Normal buffer).
  { intros calls e H Hin.
    destruct (thrown_calls w req calls e H) as (_ & [(-> & _) | Hc]);
      [destruct Hin | exact (Hcalls calls Hc Hin)]. }
  destruct (handler_paths w req)
    as [(t & Ht & Hh)
       | [(calls & e & error & Ht & _ & Hh)
         | [(calls & e & fault & Ht & _ & Hh) | (calls & Ht & Hh)]]];
    rewrite Hh; simpl fst; intros Hin.
  - inversion Ht; subst; simpl in Hin;
      repeat (destruct Hin as [Hin|Hin]; try discriminate);
      try contradiction.
    injection Hin as <-; exists url, response; auto.
  - apply in_app_or in Hin; destruct Hin as [Hin | [Hin | []]];
      [exact (Hthrown calls e Ht Hin) | discriminate].
  - exact (Hthrown calls e Ht Hin).
  - destruct (stalled_calls w req calls Ht) as (_ & [(-> & _) | Hc]);
      [destruct Hin | exact (Hcalls calls Hc Hin)].
Qed.

(** X7: with no usable query parameter, a body whose read throws (a
    malformed payload) is answered 500 and nothing is fetched; the [error]
    is the message of the thrown value when that is truthy, and [String]
    of the value otherwise, for a value [String] can render. *)
Theorem body_fault_reported (w : World) (req : Request) (e message : value) :
  truthy (query_fileURL req) = false ->
  body req = Throw e ->
  property e (lit "message") = Some message ->
  (truthy message = false -> ToString e <> None) ->
  exists error,
    handler w req =
      ([Respond 500
          (VObject ObjectPrototype
             [(lit "ok", VBool false); (lit "error", error)])],
       Normal tt) /\
    fetches (fst (handler w req)) = [] /\
    (truthy message = true -> error = message) /\
    (forall s, truthy message = false -> ToString e = Some s ->
               error = VString s).
Proof.
  intros Hq Hb Hm Hrender.
  destruct (reported_spec e message Hm Hrender) as (error & He & H1 & H2).
  assert (Htry : try_block w req = ([], Throw e)).
  { unfold try_block.
    rewrite (read_fileURL_body_throws w req e Hq Hb); reflexivity. }
  assert (H : handler w req =
              ([Respond 500 (error_envelope error)], Normal tt)).
  { rewrite (handler_catches w req [] e Htry).
    rewrite (catch_block_reports w e error He); reflexivity. }
  exists error; repeat split; try assumption.
  rewrite H; reflexivity.
Qed.

(** X8: a truthy query parameter shadows the body: the body is not read,
    so neither its content nor a fault of its read changes anything. *)
Theorem query_shadows_body (w : World) (req : Request)
    (b : Completion value) :
  truthy (query_fileURL req) = true ->
  handler w {| query_fileURL := query_fileURL req; body := b |} =
  handler w req.
Proof.
  intros Hq; unfold handler, try_block.
  rewrite (read_fileURL_query w req Hq).
  rewrite (read_fileURL_query w
             {| query_fileURL := query_fileURL req; body := b |} Hq).
  reflexivity.
Qed.

(** X9: a parse result whose [text] is neither [null], [undefined] nor a
    string has no [trim] to call: the answer is 500, with the message of
    the engine's [TypeError], or "TypeError" when that message is
    empty. *)
Theorem non_string_text_is_server_error (w : World) (req : Request)
    (url : value) (response : FetchResponse) (buffer : list Byte.byte)
    (data text : value) :
  read_fileURL w req = ret url -> truthy url = true ->
  fetch w url = Normal response -> ok response = true ->
  arrayBuffer response = Normal buffer ->
  pdfParse w buffer = Normal data ->
  property data (lit "text") = Some text ->
  nullish text = false -> is_string text = false ->
  handler w req =
    ([Fetch url; ArrayBuffer; PdfParse buffer;
      Respond 500
        (error_envelope
           (VString
              (match engine_message w NotAFunction with
               | [] => lit "TypeError"
               | _ :: _ => engine_message w NotAFunction
               end)))],
     Normal tt).
Proof.
  intros Hu Ht Hf Hok Hb Hp Htext Hnt Hstr.
  assert (Hx : extract_text w data =
               ([], Throw (TypeError (engine_message w NotAFunction)))).
  { assert (Hn : nullish data = false)
      by (destruct data; try reflexivity; discriminate).
    unfold extract_text, get.
    rewrite Hn, Htext, bind_eval_normal, Hnt.
    destruct text; try discriminate; reflexivity. }
  assert (Htry : try_block w req =
                 ([Fetch url; ArrayBuffer; PdfParse buffer],
                  Throw (TypeError (engine_message w NotAFunction)))).
  { rewrite (try_block_parsed w req url response buffer data
               Hu Ht Hf Hok Hb Hp), Hx; reflexivity. }
  rewrite (handler_catches w req _ _ Htry).
  rewrite (catch_block_reports w _
             (VString
                (match engine_message w NotAFunction with
                 | [] => lit "TypeError"
                 | _ :: _ => engine_message w NotAFunction
                 end)))
    by (destruct (engine_message w NotAFunction); reflexivity).
  reflexivity.
Qed.

Lemma ToString_error_object (props : list (jsstring * value))
    (m n : jsstring) :
  own_property (lit "toString") props = None ->
  own_property (lit "message") props = Some (VString m) ->
  own_property (lit "name") props = Some (VString n) ->
  ToString (VObject ErrorPrototype props) = Some (error_toString n m).
Proof.
  intros Hts Hm Hn; simpl; rewrite Hts.
  match goal with
  | |- match ?f _ _ _ with _ => _ end = _ => set (render := f)
  end.
  assert (Hr : forall k dflt l x,
            own_property k l = Some (VString x) ->
            render k dflt l = Some x).
  { intros k dflt l x; induction l as [|[k' v] l IH]; simpl;
      [discriminate|].
    destruct (jsstring_eqb k k'); [|exact IH].
    intros [= ->]; reflexivity. }
  rewrite (Hr _ _ _ _ Hm), (Hr _ _ _ _ Hn); reflexivity.
Qed.

(** X10: an error object without a [toString] of its own, thrown by one of
    the three steps, is reported by its message, and by its name when the
    message is empty. *)
Theorem error_object_reported (w : World) (req : Request) (url : value)
    (props : list (jsstring * value)) (m n : jsstring) :
  read_fileURL w req = ret url -> truthy url = true ->
  step_throws w url (VObject ErrorPrototype props) ->
  own_property (lit "toString") props = None ->
  own_property (lit "message") props = Some (VString m) ->
  own_property (lit "name") props = Some (VString n) ->
  responses (fst (handler w req)) =
    [(500, VObject ObjectPrototype
             [(lit "ok", VBool false);
              (lit "error",
               VString (match m with [] => n | _ :: _ => m end))])].
Proof.
  intros Hu Ht Hs Hts Hm Hn.
  destruct (step_throws_try_block w req url _ Hu Ht Hs) as (t & Htry & Hr).
  assert (He : reported (VObject ErrorPrototype props) =
               Some (VString (match m with [] => n | _ :: _ => m end))).
  { unfold reported.
    assert (Hp : property (VObject ErrorPrototype props) (lit "message") =
                 Some (VString m)) by (simpl; rewrite Hm; reflexivity).
    rewrite Hp, (ToString_error_object props m n Hts Hm Hn).
    destruct m as [|c m]; [destruct n|]; reflexivity. }
  rewrite (handler_catches w req t _ Htry).
  rewrite (catch_block_reports w _ _ He).
  simpl fst; rewrite responses_app, Hr; reflexivity.
Qed.

(** X11: the read of the parameter is guarded: when the read of the body
    does not throw, whatever the body is ([null], a string, a number, an
    array, an object), the read of [fileURL] does not throw either. *)
Theorem parameter_read_guarded (w : World) (req : Request) (b : value) :
  body req = Normal b ->
  exists url, read_fileURL w req = ret url.
Proof.
  intros Hb.
  destruct (read_fileURL_paths w req)
    as [H | [(e & _ & Hb' & _) | (_ & Hb' & _)]];
    [exact H | congruence | congruence].
Qed.

Lemma trim_fixed (s : jsstring) : no_outer_white_space s -> trim s = s.
Proof.
  intros [Hhead Hlast].
  assert (Hstart : trimStart s = s).
  { destruct s as [|c s']; [reflexivity|].
    simpl; rewrite (Hhead c s' eq_refl); reflexivity. }
  unfold trim, trimEnd; rewrite Hstart.
  destruct (rev s) as [|c l] eqn:Hrev.
  - apply (f_equal (@rev N)) in Hrev; rewrite rev_involutive in Hrev.
    rewrite Hrev; reflexivity.
  - assert (Hs : s = rev l ++ [c]).
    { apply (f_equal (@rev N)) in Hrev; rewrite rev_involutive in Hrev.
      exact Hrev. }
    simpl trimStart; rewrite (Hlast c (rev l) Hs).
    simpl; symmetry; exact Hs.
Qed.

(** X12: a text with no white space at either end is passed on as it is:
    the white space inside is kept. *)
Theorem clean_text_passed_verbatim (w : World) (req : Request)
    (url : value) (response : FetchResponse) (buffer : list Byte.byte)
    (data : value) (text : jsstring) :
  read_fileURL w req = ret url -> truthy url = true ->
  fetch w url = Normal response -> ok response = true ->
  arrayBuffer response = Normal buffer ->
  pdfParse w buffer = Normal data ->
  property data (lit "text") = Some (VString text) ->
  no_outer_white_space text ->
  responses (fst (handler w req)) =
    [(200, VObject ObjectPrototype
             [(lit "ok", VBool true); (lit "text", VString text)])].
Proof.
  intros Hu Ht Hf Hok Hb Hp Htext Hclean.
  unfold handler.
  rewrite (try_block_parsed w req url response buffer data Hu Ht Hf Hok Hb Hp).
  rewrite (extract_text_string w data text Htext), bind_ret_l.
  rewrite (trim_fixed text Hclean); reflexivity.
Qed.

End Paths.

(* ================================================================= *)
(** ** The paths on the concrete world *)

Lemma fetches_the_fileURL_witness :
  fetches (fst (handler world (POST VUndefined (VBool true)))) =
    if truthy (VBool true) then [VBool true] else [].
Proof.
  apply (fetches_the_fileURL world (POST VUndefined (VBool true)) (VBool true));
    reflexivity.
Defined.

Lemma success_only_after_parse_witness :
  exists url response buffer data text,
    read_fileURL world (GET hello_url) = ret url /\ truthy url = true /\
    fetch world url = Normal response /\ ok response = true /\
    arrayBuffer response = Normal buffer /\
    pdfParse world buffer = Normal data /\
    success_envelope (VString (lit "Hello World")) =
      success_envelope (VString text) /\
    no_outer_white_space text /\
    fst (handler world (GET hello_url)) =
      [Fetch url; ArrayBuffer; PdfParse buffer;
       Respond 200 (success_envelope (VString (lit "Hello World")))].
Proof.
  apply (success_only_after_parse world (GET hello_url)
           (success_envelope (VString (lit "Hello World")))).
  do 3 right; left; reflexivity.
Defined.

Lemma response_statuses_witness :
  member "ok" unable_to_fetch = Some (VBool (400 =? 200)) /\
  ((400 = 200 /\ exists text, unable_to_fetch = success_envelope (VString text)) \/
   (400 = 400 /\
    (unable_to_fetch = missing_parameter \/ unable_to_fetch = unable_to_fetch)) \/
   (400 = 500 /\ exists error, unable_to_fetch = error_envelope error)).
Proof.
  apply (response_statuses world (GET nonexistent_url) 400 unable_to_fetch).
  right; left; reflexivity.
Defined.

Lemma client_error_causes_witness :
  (In (Respond 400 missing_parameter) (fst (handler world (GET nonexistent_url))) <->
   truthy (VString nonexistent_url) = false) /\
  (In (Respond 400 unable_to_fetch) (fst (handler world (GET nonexistent_url))) <->
   truthy (VString nonexistent_url) = true /\
   exists response,
     fetch world (VString nonexistent_url) = Normal response /\
     ok response = false).
Proof.
  apply (client_error_causes world (GET nonexistent_url)
           (VString nonexistent_url)).
  reflexivity.
Defined.

Lemma parser_input_is_fetched_witness :
  exists url response,
    read_fileURL world (GET notes_url) = ret url /\ truthy url = true /\
    fetch world url = Normal response /\ ok response = true /\
    arrayBuffer response = Normal notes_txt.
Proof.
  apply (parser_input_is_fetched world (GET notes_url) notes_txt).
  do 2 right; left; reflexivity.
Defined.

Lemma body_fault_reported_witness :
  exists error,
    handler world (POST_malformed VUndefined) =
      ([Respond 500
          (VObject ObjectPrototype
             [(lit "ok", VBool false); (lit "error", error)])],
       Normal tt) /\
    fetches (fst (handler world (POST_malformed VUndefined))) = [] /\
    (truthy (VString (lit "Invalid JSON")) = true ->
     error = VString (lit "Invalid JSON")) /\
    (forall s, truthy (VString (lit "Invalid JSON")) = false ->
               ToString invalid_json = Some s -> error = VString s).
Proof.
  apply (body_fault_reported world (POST_malformed VUndefined) invalid_json
           (VString (lit "Invalid JSON")));
    [reflexivity | reflexivity | reflexivity | discriminate].
Defined.

Lemma query_shadows_body_witness :
  handler world (POST_malformed (VString hello_url)) =
  handler world (GET hello_url).
Proof.
  apply (query_shadows_body world (GET hello_url) (Throw invalid_json)).
  reflexivity.
Defined.

Lemma non_string_text_is_server_error_witness :
  handler numbering_parser (GET hello_url) =
    ([Fetch (VString hello_url); ArrayBuffer; PdfParse hello_pdf;
      Respond 500
        (error_envelope
           (VString
              (match engine_message numbering_parser NotAFunction with
               | [] => lit "TypeError"
               | _ :: _ => engine_message numbering_parser NotAFunction
               end)))],
     Normal tt).
Proof.
  apply (non_string_text_is_server_error numbering_parser (GET hello_url)
           (VString hello_url)
           {| status := 200; arrayBuffer := Normal hello_pdf |} hello_pdf
           numbered_data numbered_text);
    reflexivity.
Defined.

Lemma error_object_reported_witness :
  responses (fst (handler (rejecting_client aborted) (GET hello_url))) =
    [(500, VObject ObjectPrototype
             [(lit "ok", VBool false);
              (lit "error", VString (lit "AbortError"))])].
Proof.
  apply (error_object_reported (rejecting_client aborted) (GET hello_url)
           (VString hello_url)
           [(lit "name", VString (lit "AbortError"));
            (lit "message", VString [])]
           [] (lit "AbortError"));
    try reflexivity.
  apply fetch_throws; reflexivity.
Defined.

Lemma parameter_read_guarded_witness :
  exists url, read_fileURL world POST_null = ret url.
Proof.
  apply (parameter_read_guarded world POST_null VNull); reflexivity.
Defined.

Lemma clean_text_passed_verbatim_witness :
  responses (fst (handler plain_parser (GET hello_url))) =
    [(200, VObject ObjectPrototype
             [(lit "ok", VBool true);
              (lit "text", VString (lit "Hello World"))])].
Proof.
  apply (clean_text_passed_verbatim plain_parser (GET hello_url)
           (VString hello_url)
           {| status := 200; arrayBuffer := Normal hello_pdf |} hello_pdf
           plain_data (lit "Hello World"));
    try reflexivity.
  change (no_outer_white_space (trim (lit "Hello World"))).
  apply trim_no_outer_white_space.
Defined.
